(** * Group membership of cohort-connect-core

    A shallow embedding of the group membership code of the repository:
    the [useGroups] hook (createGroup, joinGroup, leaveGroup, addMember,
    addMemberAlternative, removeMember, getUserRoleInGroup,
    fetchPublicGroups), the SQL helper [add_group_member] and the
    row-level-security policies of the SQL files.

    The two tables are lists of rows, in insertion order.  A call of the
    hook is a function from the database before the call to the database
    after it and the value returned or the error thrown.  Values the
    database draws on its own (gen_random_uuid(), NOW()) are arguments of
    the operation that needs them. *)

From Stdlib Require Import List String Bool Arith Lia Sorted.
Import ListNotations.
Open Scope string_scope.
Open Scope bool_scope.

(** ** Rows *)

Definition Uuid := string.
Definition Time := nat.

Inductive Visibility := Public | Private.
Inductive Role := Admin | Moderator | Member.

Definition Visibility_eqb (a b : Visibility) : bool :=
  match a, b with
  | Public, Public | Private, Private => true
  | _, _ => false
  end.

Definition Role_eqb (a b : Role) : bool :=
  match a, b with
  | Admin, Admin | Moderator, Moderator | Member, Member => true
  | _, _ => false
  end.

(** interface Group *)
Record Group := mkGroup {
  g_id : Uuid;
  g_name : string;
  g_description : string;
  g_profile_pic_url : option string;
  g_visibility : Visibility;
  g_created_by : Uuid;
  g_created_at : Time;
  g_updated_at : Time
}.

(** interface GroupMember *)
Record GroupMember := mkGroupMember {
  gm_id : Uuid;
  gm_group_id : Uuid;
  gm_user_id : Uuid;
  gm_role : Role;
  gm_joined_at : Time
}.

Record Db := mkDb {
  groups : list Group;
  group_members : list GroupMember
}.

Definition empty_db : Db := mkDb [] [].

(** WHERE group_id = gid AND user_id = uid *)
Definition is_pair (gid uid : Uuid) (m : GroupMember) : bool :=
  (gm_group_id m =? gid) && (gm_user_id m =? uid).

(** part_004, [public.is_member]: a raw existence check. *)
Definition is_member (db : Db) (gid uid : Uuid) : bool :=
  existsb (is_pair gid uid) (group_members db).

(** part_004, [public.is_group_public]. *)
Definition is_group_public (db : Db) (gid : Uuid) : bool :=
  existsb (fun g => (g_id g =? gid) && Visibility_eqb (g_visibility g) Public)
          (groups db).

(** EXISTS (SELECT 1 FROM groups WHERE id = gid AND created_by = uid) *)
Definition is_creator (db : Db) (gid uid : Uuid) : bool :=
  existsb (fun g => (g_id g =? gid) && (g_created_by g =? uid)) (groups db).

(** role IN ('admin', 'moderator') *)
Definition admin_or_moderator (r : Role) : bool :=
  match r with
  | Admin | Moderator => true
  | Member => false
  end.

Definition has_role (db : Db) (gid uid : Uuid) (p : Role -> bool) : bool :=
  existsb (fun m => is_pair gid uid m && p (gm_role m)) (group_members db).

(** ** Errors and results *)

Inductive Error :=
| NotAuthenticated      (* new Error('User not authenticated') *)
| RlsViolation          (* new row violates row-level security policy *)
| UniqueViolation       (* duplicate key on (group_id, user_id) *)
| FunctionNotFound      (* the rpc names a function the server lacks *)
| UnableToAddMember.    (* new Error('Unable to add member due to ...') *)

Inductive Result (A : Type) :=
| Returned (a : A)
| Thrown (e : Error).
Arguments Returned {A} a.
Arguments Thrown {A} e.

(** The failure names of the interface, as the caller tells them apart. *)
Inductive Failure := Unauthenticated | Unauthorized | AlreadyMember | OtherFailure.

Definition failure_of (e : Error) : Failure :=
  match e with
  | NotAuthenticated => Unauthenticated
  | RlsViolation => Unauthorized
  | UniqueViolation => AlreadyMember
  | FunctionNotFound => OtherFailure
  | UnableToAddMember => Unauthorized
  end.

(** ** The SQL helper add_group_member (part_005) *)

Inductive Json :=
| JsonSuccess (message : string)
| JsonError (error : string).

(** Modelled from the spec: the table definition of group_members is not
    among the sources; the spec gives the pair (group, user) as "unique
    together", and the upsert of addMemberAlternative names that
    constraint (onConflict: 'group_id,user_id').  An INSERT of a pair
    that is present raises a unique violation. *)
Definition raw_insert_member (db : Db) (row : GroupMember) : Db + Error :=
  if is_member db (gm_group_id row) (gm_user_id row)
  then inr UniqueViolation
  else inl (mkDb (groups db) (group_members db ++ [row])).

Definition SQLERRM (e : Error) : string :=
  match e with
  | UniqueViolation => "duplicate key value violates unique constraint"
  | RlsViolation => "new row violates row-level security policy"
  | _ => "error"
  end.

(** The two authorization cases, lines 24-41: is_authorized starts FALSE,
    case 1 sets it for the creator, case 2 (only tried when case 1 did
    not) for an admin or moderator row. *)
Definition is_authorized (db : Db) (current_user_id target_group_id : Uuid) : bool :=
  let is_authorized := false in
  let is_authorized :=
    if is_creator db target_group_id current_user_id then true else is_authorized in
  let is_authorized :=
    if negb is_authorized
       && has_role db target_group_id current_user_id admin_or_moderator
    then true else is_authorized in
  is_authorized.

(** SECURITY DEFINER: the reads and the insert go to the tables
    directly.  [new_id] and [now] are the column defaults of the new row. *)
Definition add_group_member (db : Db) (auth_uid : option Uuid)
    (target_group_id target_user_id : Uuid) (member_role : Role)
    (new_id : Uuid) (now : Time) : Db * Json :=
  match auth_uid with
  | None => (db, JsonError "User not authenticated")
  | Some current_user_id =>
    if negb (is_authorized db current_user_id target_group_id) then
      (db, JsonError "Not authorized to add members to this group")
    else if is_member db target_group_id target_user_id then
      (db, JsonError "User is already a member of this group")
    else
      match raw_insert_member db
              (mkGroupMember new_id target_group_id target_user_id member_role now) with
      | inl db' => (db', JsonSuccess "Member added successfully")
      | inr e => (db, JsonError (SQLERRM e))   (* EXCEPTION WHEN others *)
      end
  end.

(** ** The backend: row-level security

    Every request of the hook reaches the tables through the policies in
    force for the table and the command.  The SQL files replace the
    policies of group_members several times, and the policies for DELETE
    and UPDATE on group_members and for INSERT on groups are in none of
    them, so the policies in force are a parameter; the ones the SQL files
    define follow as definitions.  [rpc_add_group_member] tells whether
    the server has the helper function that createGroup calls.

    A policy is a test on one row, given the tables and the caller
    (auth.uid()).  PostgreSQL reads the subqueries inside a policy
    through the SELECT policy of the table they range over.  The helper
    functions is_member and is_group_public are SECURITY DEFINER and read
    the tables directly.  A definition of [Policy] whose subqueries are
    written as direct reads stands for its policy where the rows they
    need are visible to the caller (her own membership rows, the public
    groups); the creator cases, whose subquery ranges over groups, are
    written with the filter where a statement depends on it
    ([be_added_by_admins], [Chat.creator_case]).  Two SELECT policies
    whose subqueries read each other's table (the one of groups with
    "Users can view group members simple" of fix_rls_recursion.sql or
    with "Simple member viewing" of fix_member_policy_simple.sql) are
    answered with an error for infinite recursion on every request, and
    make no backend of this model. *)

Record Backend := mkBackend {
  groups_select : Db -> Uuid -> Group -> bool;
  groups_insert : Db -> Uuid -> Group -> bool;
  members_select : Db -> Uuid -> GroupMember -> bool;
  members_insert : Db -> Uuid -> GroupMember -> bool;
  members_update : Db -> Uuid -> GroupMember -> bool;
  members_delete : Db -> Uuid -> GroupMember -> bool;
  rpc_add_group_member : bool
}.

Module Policy.

(** fix_rls_recursion.sql, lines 20-31 (and twice the same in migration
    20250920000002): "Users can view groups they are members of or
    public groups" ON groups FOR SELECT.  The subquery reads the
    caller's own membership rows, which the SELECT policy on
    group_members below shows to the caller. *)
Definition view_groups_members_or_public (db : Db) (uid : Uuid) (g : Group) : bool :=
  Visibility_eqb (g_visibility g) Public
  || existsb (fun gm => (gm_group_id gm =? g_id g) && (gm_user_id gm =? uid))
             (group_members db).

(** part_004, lines 26-34, with the helper functions. *)
Definition view_members_of_own_groups (db : Db) (uid : Uuid) (m : GroupMember) : bool :=
  is_group_public db (gm_group_id m)
  || (gm_user_id m =? uid)
  || is_member db (gm_group_id m) uid.

(** Migration 20250920000002, lines 80-94: "Users can join groups". *)
Definition users_can_join_groups (db : Db) (uid : Uuid) (m : GroupMember) : bool :=
  (uid =? gm_user_id m)
  && (is_group_public db (gm_group_id m)
      || has_role db (gm_group_id m) uid admin_or_moderator).

(** Migration 20250925000001: "Users can join groups or be added by
    admins". *)
Definition join_or_added_by_admins (db : Db) (uid : Uuid) (m : GroupMember) : bool :=
  ((uid =? gm_user_id m) && is_group_public db (gm_group_id m))
  || (uid =? gm_user_id m)
  || has_role db (gm_group_id m) uid admin_or_moderator
  || is_creator db (gm_group_id m) uid.

(** fix_member_policy_simple.sql, lines 44-56: "Non-recursive member
    insertion". *)
Definition non_recursive_member_insertion (db : Db) (uid : Uuid) (m : GroupMember) : bool :=
  (gm_user_id m =? uid) || is_creator db (gm_group_id m) uid.

(** test_open_policy.sql: WITH CHECK (true). *)
Definition allow_all {Row : Type} (db : Db) (uid : Uuid) (r : Row) : bool := true.

Definition deny_all {Row : Type} (db : Db) (uid : Uuid) (r : Row) : bool := false.

End Policy.

(** ** Requests *)

Section Requests.

Variable be : Backend.

(** .from('groups').select(...) with the filter [p], as user [me]. *)
Definition select_groups (db : Db) (me : Uuid) (p : Group -> bool) : list Group :=
  filter (fun g => p g && groups_select be db me g) (groups db).

Definition select_members (db : Db) (me : Uuid) (p : GroupMember -> bool)
  : list GroupMember :=
  filter (fun m => p m && members_select be db me m) (group_members db).

(** .single(): an error unless exactly one row comes back;
    .maybeSingle(): null for no row, an error (and null data) for
    several.  Each caller reads only [data], so the two agree here. *)
Definition single {A : Type} (rows : list A) : option A :=
  match rows with
  | [r] => Some r
  | _ => None
  end.

(** .insert(row).select().single() on groups: the new row has to pass
    the INSERT policy and, being handed back, the SELECT policy; else
    the insert is refused and nothing is written. *)
Definition insert_group (db : Db) (me : Uuid) (row : Group) : Db + Error :=
  if groups_insert be db me row && groups_select be db me row
  then inl (mkDb (groups db ++ [row]) (group_members db))
  else inr RlsViolation.

(** .insert(row) on group_members with nothing handed back (joinGroup,
    the inserts of createGroup): the policy's WITH CHECK is tried before
    the row reaches the index. *)
Definition insert_member (db : Db) (me : Uuid) (row : GroupMember) : Db + Error :=
  if members_insert be db me row
  then raw_insert_member db row
  else inr RlsViolation.

(** .insert(row).select() on group_members (addMember): the row is
    handed back, so it has to pass the SELECT policy too. *)
Definition insert_member_returning (db : Db) (me : Uuid) (row : GroupMember)
  : Db + Error :=
  if members_insert be db me row && members_select be db me row
  then raw_insert_member db row
  else inr RlsViolation.

(** .delete().eq('group_id', gid).eq('user_id', uid): the delete
    reaches the rows that the SELECT policy shows to the caller and the
    DELETE policy lets her delete; the other rows stay, without an
    error. *)
Definition delete_member (db : Db) (me : Uuid) (gid uid : Uuid) : Db :=
  mkDb (groups db)
       (filter (fun m => negb (is_pair gid uid m && members_select be db me m
                               && members_delete be db me m))
               (group_members db)).

(** .upsert(row, { onConflict: 'group_id,user_id', ignoreDuplicates:
    false }).select(): INSERT ... ON CONFLICT (group_id, user_id) DO
    UPDATE SET the given columns.  On the update path the existing row
    has to pass the SELECT and the UPDATE policy, and the row as updated,
    which is handed back, the UPDATE policy (as its check) and the SELECT
    policy; else the statement is refused.  The insert path is the insert
    that hands the row back.  The row's id is not among the given columns
    and stays. *)
Definition overwrite (row : GroupMember) (m : GroupMember) : GroupMember :=
  if is_pair (gm_group_id row) (gm_user_id row) m
  then mkGroupMember (gm_id m) (gm_group_id row) (gm_user_id row)
                     (gm_role row) (gm_joined_at row)
  else m.

Definition upsert_member (db : Db) (me : Uuid) (row : GroupMember)
  : (Db * list GroupMember) + Error :=
  if is_member db (gm_group_id row) (gm_user_id row) then
    if forallb (fun m => negb (is_pair (gm_group_id row) (gm_user_id row) m)
                         || (members_select be db me m
                             && members_update be db me m
                             && members_update be db me (overwrite row m)
                             && members_select be db me (overwrite row m)))
               (group_members db)
    then let rows := map (overwrite row) (group_members db) in
         inl (mkDb (groups db) rows,
              filter (is_pair (gm_group_id row) (gm_user_id row)) rows)
    else inr RlsViolation
  else
    match insert_member_returning db me row with
    | inl db' => inl (db', [row])
    | inr e => inr e
    end.

(** supabase.rpc('add_group_member', ...): [error] is set only when the
    call itself fails; a JSON answer with success = false is data. *)
Definition rpc (db : Db) (me : Uuid) (target_group_id target_user_id : Uuid)
    (member_role : Role) (new_id : Uuid) (now : Time) : (Db * Json) + Error :=
  if rpc_add_group_member be
  then inl (add_group_member db (Some me) target_group_id target_user_id
                             member_role new_id now)
  else inr FunctionNotFound.

End Requests.


(** ** The hook useGroups *)

(** The argument of createGroup. *)
Record GroupData := mkGroupData {
  gd_name : string;
  gd_description : string;
  gd_visibility : Visibility;
  gd_profile_pic_url : option string
}.

(** What fetchPublicGroups hands to setPublicGroups: the selected columns
    of the group, visibility set to 'public', and member_count 0. *)
Record PublicGroup := mkPublicGroup {
  pg_group : Group;
  pg_member_count : nat
}.

(** The first version of the hook (part_000, lines 531-843). *)
Module UseGroupsV1.

(** lines 640-686 *)
Definition createGroup (be : Backend) (db : Db) (user : option Uuid)
    (groupData : GroupData) (new_gid new_mid : Uuid) (now : Time)
  : Db * Result Group :=
  match user with
  | None => (db, Thrown NotAuthenticated)
  | Some me =>
    let group := mkGroup new_gid (gd_name groupData) (gd_description groupData)
                         (gd_profile_pic_url groupData) (gd_visibility groupData)
                         me now now in
    match insert_group be db me group with
    | inr groupError => (db, Thrown groupError)
    | inl db1 =>
      match insert_member be db1 me (mkGroupMember new_mid (g_id group) me Admin now) with
      | inr memberError => (db1, Thrown memberError)
      | inl db2 => (db2, Returned group)
      end
    end
  end.

End UseGroupsV1.

Section UseGroups.

Variable be : Backend.

(** .order('created_at', { ascending: false }) *)
Fixpoint insert_by_created_at (g : Group) (l : list Group) : list Group :=
  match l with
  | [] => [g]
  | h :: t => if Nat.ltb (g_created_at h) (g_created_at g)
              then g :: h :: t
              else h :: insert_by_created_at g t
  end.

Definition order_by_created_at_desc (l : list Group) : list Group :=
  fold_right insert_by_created_at [] l.

(** .filter(Boolean) on ids: the empty string is the falsy one. *)
Definition truthy (s : Uuid) : bool :=
  match s with
  | EmptyString => false
  | _ => true
  end.

(** [...new Set(ids)] *)
Fixpoint new_Set (ids : list Uuid) : list Uuid :=
  match ids with
  | [] => []
  | x :: t => x :: filter (fun y => negb (y =? x)) (new_Set t)
  end.

Definition includes (ids : list Uuid) (x : Uuid) : bool :=
  existsb (fun y => y =? x) ids.

(** lines 969-1035.  No select of the model fails, so the branch on
    groupsError is not taken. *)
Definition fetchPublicGroups (db : Db) (user : option Uuid) : list PublicGroup :=
  match user with
  | None => []
  | Some me =>
    let membershipData := select_members be db me (fun m => gm_user_id m =? me) in
    let createdGroups := select_groups be db me (fun g => g_created_by g =? me) in
    let memberGroupIds := filter truthy (map gm_group_id membershipData) in
    let createdGroupIds := filter truthy (map g_id createdGroups) in
    let userGroupIds := new_Set (memberGroupIds ++ createdGroupIds) in
    let allGroups := order_by_created_at_desc (select_groups be db me (fun _ => true)) in
    let filteredPublicGroups :=
      firstn 20 (filter (fun group => negb (includes userGroupIds (g_id group)))
                        allGroups) in
    map (fun group =>
           mkPublicGroup
             (mkGroup (g_id group) (g_name group) (g_description group)
                      (g_profile_pic_url group) Public (g_created_by group)
                      (g_created_at group) (g_updated_at group))
             0)
        filteredPublicGroups
  end.

(** lines 1037-1129.  The refreshes at the end (fetchUserGroups,
    fetchPublicGroups) read only and catch their own errors. *)
Definition createGroup (db : Db) (user : option Uuid) (groupData : GroupData)
    (new_gid new_mid : Uuid) (now : Time) : Db * Result Group :=
  match user with
  | None => (db, Thrown NotAuthenticated)
  | Some me =>
    let groupInsert := mkGroup new_gid (gd_name groupData) (gd_description groupData)
                               (gd_profile_pic_url groupData) (gd_visibility groupData)
                               me now now in
    match insert_group be db me groupInsert with
    | inr groupError => (db, Thrown groupError)
    | inl db1 =>
      let group := groupInsert in
      match rpc be db1 me (g_id group) me Admin new_mid now with
      | inl (db2, memberResult) => (db2, Returned group)
      | inr memberError =>
        (* direct insert as fallback *)
        match insert_member be db1 me (mkGroupMember new_mid (g_id group) me Admin now) with
        | inl db2 => (db2, Returned group)
        | inr fallbackError => (db1, Returned group)
        end
      end
    end
  end.

(** lines 1132-1155 *)
Definition joinGroup (db : Db) (user : option Uuid) (groupId : Uuid)
    (new_mid : Uuid) (now : Time) : Db * Result unit :=
  match user with
  | None => (db, Thrown NotAuthenticated)
  | Some me =>
    match insert_member be db me (mkGroupMember new_mid groupId me Member now) with
    | inr error => (db, Thrown error)
    | inl db' => (db', Returned tt)
    end
  end.

(** lines 1157-1176 *)
Definition leaveGroup (db : Db) (user : option Uuid) (groupId : Uuid)
  : Db * Result unit :=
  match user with
  | None => (db, Thrown NotAuthenticated)
  | Some me => (delete_member be db me groupId me, Returned tt)
  end.

(** lines 1286-1319 *)
Definition addMemberAlternative (db : Db) (me : Uuid) (groupId userId : Uuid)
    (role : Role) (new_mid : Uuid) (now : Time)
  : Db * Result (list GroupMember) :=
  match upsert_member be db me (mkGroupMember new_mid groupId userId role now) with
  | inr error => (db, Thrown error)
  | inl (db', data) => (db', Returned data)
  end.

(** lines 1343-1366: what addMember does once its check has found no
    row, the normal insert and on its failure the alternative; [db] is the
    table at the time of the insert.  The result is [None] where the
    source returns undefined. *)
Definition addMember_after_check (db : Db) (me : Uuid) (groupId userId : Uuid)
    (role : Role) (new_mid : Uuid) (now : Time)
  : Db * Result (option (list GroupMember)) :=
  match insert_member_returning be db me
          (mkGroupMember new_mid groupId userId role now) with
  | inl db' => (db', Returned None)
  | inr error =>
    match addMemberAlternative db me groupId userId role new_mid now with
    | (db', Returned data) => (db', Returned (Some data))
    | (db', Thrown altError) => (db', Thrown UnableToAddMember)
    end
  end.

(** lines 1321-1371.  testPermissions reads and logs only. *)
Definition addMember (db : Db) (user : option Uuid) (groupId userId : Uuid)
    (role : Role) (new_mid : Uuid) (now : Time)
  : Db * Result (option (list GroupMember)) :=
  match user with
  | None => (db, Thrown NotAuthenticated)
  | Some me =>
    let existingMember := single (select_members be db me (is_pair groupId userId)) in
    match existingMember with
    | Some _ => (db, Returned None)       (* already a member, skipping *)
    | None => addMember_after_check db me groupId userId role new_mid now
    end
  end.

(** lines 1374-1391 *)
Definition removeMember (db : Db) (user : option Uuid) (groupId userId : Uuid)
  : Db * Result unit :=
  match user with
  | None => (db, Thrown NotAuthenticated)
  | Some me => (delete_member be db me groupId userId, Returned tt)
  end.

(** lines 1394-1428 *)
Definition getUserRoleInGroup (db : Db) (user : option Uuid) (groupId : Uuid)
  : option Role :=
  match user with
  | None => None
  | Some me =>
    let groupData := single (select_groups be db me (fun g => g_id g =? groupId)) in
    let from_group_members :=
      match single (select_members be db me (is_pair groupId me)) with
      | Some data => Some (gm_role data)
      | None => None
      end in
    match groupData with
    | Some g => if g_created_by g =? me then Some Admin else from_group_members
    | None => from_group_members
    end
  end.

End UseGroups.

(** ** Predicates of the statements and example states *)

(** The creator of group G. *)
Definition creator_of (db : Db) (G U : Uuid) : Prop :=
  exists g, In g (groups db) /\ g_id g = G /\ g_created_by g = U.

(** A private group of alice with bob as a plain member. *)
Definition study_group : Group :=
  mkGroup "g1" "Algebra" "Linear algebra study group" None Private "alice" 10 10.

Definition db_alice_bob : Db :=
  mkDb [study_group]
       [mkGroupMember "m1" "g1" "alice" Admin 10;
        mkGroupMember "m2" "g1" "bob" Member 11].

(** Alice's private group after alice left it: the group row stays, no
    membership row is left. *)
Definition db_alice_left : Db := mkDb [study_group] [].

(** At most one membership row per (group, user) pair. *)
Definition pair_of (m : GroupMember) : Uuid * Uuid := (gm_group_id m, gm_user_id m).

Definition unique_pairs (db : Db) : Prop := NoDup (map pair_of (group_members db)).

(** The calls that write, and the states they reach from the empty
    database. *)
Inductive Call :=
| CreateGroup (user : option Uuid) (groupData : GroupData)
              (new_gid new_mid : Uuid) (now : Time)
| CreateGroupV1 (user : option Uuid) (groupData : GroupData)
                (new_gid new_mid : Uuid) (now : Time)
| JoinGroup (user : option Uuid) (groupId new_mid : Uuid) (now : Time)
| LeaveGroup (user : option Uuid) (groupId : Uuid)
| AddMember (user : option Uuid) (groupId userId : Uuid) (role : Role)
            (new_mid : Uuid) (now : Time)
| RemoveMember (user : option Uuid) (groupId userId : Uuid)
| RpcAddGroupMember (auth_uid : option Uuid) (target_group_id target_user_id : Uuid)
                    (member_role : Role) (new_id : Uuid) (now : Time).

Definition run (be : Backend) (db : Db) (c : Call) : Db :=
  match c with
  | CreateGroup user groupData new_gid new_mid now =>
      fst (createGroup be db user groupData new_gid new_mid now)
  | CreateGroupV1 user groupData new_gid new_mid now =>
      fst (UseGroupsV1.createGroup be db user groupData new_gid new_mid now)
  | JoinGroup user groupId new_mid now =>
      fst (joinGroup be db user groupId new_mid now)
  | LeaveGroup user groupId =>
      fst (leaveGroup be db user groupId)
  | AddMember user groupId userId role new_mid now =>
      fst (addMember be db user groupId userId role new_mid now)
  | RemoveMember user groupId userId =>
      fst (removeMember be db user groupId userId)
  | RpcAddGroupMember auth_uid target_group_id target_user_id member_role new_id now =>
      fst (add_group_member db auth_uid target_group_id target_user_id
                            member_role new_id now)
  end.

Inductive reachable (be : Backend) : Db -> Prop :=
| reachable_empty : reachable be empty_db
| reachable_run (db : Db) (c : Call) :
    reachable be db -> reachable be (run be db c).

(** canRemoveMember in the words of the spec: "true if actor ==
    group.creator, or actor has admin role, or actor == target". *)
Definition spec_canRemoveMember (db : Db) (G U T : Uuid) : bool :=
  is_creator db G U || has_role db G U (Role_eqb Admin) || (U =? T).

(** A group with its visibility column set to 'public'. *)
Definition as_public (g : Group) : Group :=
  mkGroup (g_id g) (g_name g) (g_description g) (g_profile_pic_url g) Public
          (g_created_by g) (g_created_at g) (g_updated_at g).

(** ** Backends *)

(** No policy restricts anything; the helper function is installed. *)
Definition be_open : Backend :=
  mkBackend Policy.allow_all Policy.allow_all Policy.allow_all Policy.allow_all
            Policy.allow_all Policy.allow_all true.

(** As [be_open], but no row of group_members may be deleted. *)
Definition be_no_delete : Backend :=
  mkBackend Policy.allow_all Policy.allow_all Policy.allow_all Policy.allow_all
            Policy.allow_all Policy.deny_all true.

(** The policies of migration 20250920000002, before add_group_member
    was written. *)
Definition be_migration : Backend :=
  mkBackend Policy.view_groups_members_or_public Policy.allow_all
            Policy.view_members_of_own_groups Policy.users_can_join_groups
            Policy.allow_all Policy.allow_all false.

(** test_open_policy.sql run on top of migration 20250920000002 and
    part_004: every insert into group_members is admitted ("Test - allow
    all member insertions"), the SELECT policies stay, the helper
    function is installed. *)
Definition be_test_open : Backend :=
  mkBackend Policy.view_groups_members_or_public Policy.allow_all
            Policy.view_members_of_own_groups Policy.allow_all
            Policy.allow_all Policy.allow_all true.

(** Row-level security on group_members with no INSERT policy in force
    (each script of the SQL files drops the INSERT policies before it
    creates one) and the helper function absent; the SELECT policies of
    migration 20250920000002. *)
Definition be_no_insert : Backend :=
  mkBackend Policy.view_groups_members_or_public Policy.allow_all
            Policy.view_members_of_own_groups Policy.deny_all
            Policy.allow_all Policy.allow_all false.

(** Migration 20250920000002 followed by migration 20250925000001, which
    replaces the INSERT policy of group_members, with add_group_member
    installed.  The creator case of that policy reads groups, through the
    SELECT policy of groups. *)
Definition be_added_by_admins : Backend :=
  mkBackend Policy.view_groups_members_or_public Policy.allow_all
            Policy.view_members_of_own_groups
            (fun db uid m =>
               ((uid =? gm_user_id m) && is_group_public db (gm_group_id m))
               || (uid =? gm_user_id m)
               || has_role db (gm_group_id m) uid admin_or_moderator
               || existsb (fun g => (g_id g =? gm_group_id m) && (g_created_by g =? uid)
                                    && Policy.view_groups_members_or_public db uid g)
                          (groups db))
            Policy.allow_all Policy.allow_all true.

Definition algebra : GroupData :=
  mkGroupData "Algebra" "Linear algebra study group" Private None.

Definition chess : Group :=
  mkGroup "g2" "Chess" "Chess club" None Public "alice" 20 20.

Definition chess_club : GroupData := mkGroupData "Chess" "Chess club" Public None.

Definition db_chess : Db := mkDb [chess] [mkGroupMember "m1" "g2" "alice" Admin 20].

(** Twenty-one private groups of zed, created at times 1 to 21. *)
Definition zed_group (n : nat) : Group :=
  mkGroup (String (Ascii.ascii_of_nat (65 + n)) EmptyString) "Seminar" "Reading group"
          None Private "zed" (S n) (S n).

Definition db_twenty_one : Db := mkDb (map zed_group (seq 0 21)) [].

(** The ids that fetchPublicGroups excludes for user [me] (its local
    userGroupIds). *)
Definition userGroupIds (be : Backend) (db : Db) (me : Uuid) : list Uuid :=
  new_Set (filter truthy (map gm_group_id
                              (select_members be db me (fun m => gm_user_id m =? me)))
           ++ filter truthy (map g_id
                                 (select_groups be db me (fun g => g_created_by g =? me)))).

(** The groups left by the filter of fetchPublicGroups, before the slice
    (its filter applied to allGroups). *)
Definition notExcluded (be : Backend) (db : Db) (me : Uuid) : list Group :=
  filter (fun group => negb (includes (userGroupIds be db me) (g_id group)))
         (order_by_created_at_desc (select_groups be db me (fun _ => true))).

(** Latest first. *)
Definition latest_first (a b : Group) : Prop := g_created_at b <= g_created_at a.

(** Alice's two groups, the private one and the public one. *)
Definition db_campus : Db :=
  mkDb [study_group; chess]
       [mkGroupMember "m1" "g1" "alice" Admin 10;
        mkGroupMember "m4" "g2" "alice" Admin 20].

(** * The rest of the membership code *)

(** ** fix_member_addition_final.sql: add_group_member_bypass

    The same helper without the authorization cases: it tests that a
    user is signed in and that the pair is absent, and inserts. *)

Inductive BypassJson :=
| BypassSuccess (message : string) (group_id user_id : Uuid) (role : Role)
| BypassError (error : string).

Definition add_group_member_bypass (db : Db) (auth_uid : option Uuid)
    (target_group_id target_user_id : Uuid) (member_role : Role)
    (new_id : Uuid) (now : Time) : Db * BypassJson :=
  match auth_uid with
  | None => (db, BypassError "User not authenticated")
  | Some current_user_id =>
    if is_member db target_group_id target_user_id then
      (db, BypassError "User is already a member of this group")
    else
      match raw_insert_member db
              (mkGroupMember new_id target_group_id target_user_id member_role now) with
      | inl db' => (db', BypassSuccess "Member added successfully"
                                       target_group_id target_user_id member_role)
      | inr e => (db, BypassError (SQLERRM e))   (* EXCEPTION WHEN others *)
      end
  end.

(** ** fix_member_policy_simple.sql, lines 13-33: "Simple group member
    insertion"

    In case 2 the subquery ranges over groups, which has no column
    group_id, so the bare group_id is the one of the row to insert.  In
    case 3 the subquery ranges over group_members gm, which has that
    column: there the bare group_id is gm's own, and the test
    gm.group_id = group_id compares a row with itself. *)
Module InsertPolicy.

Definition simple_group_member_insertion (db : Db) (uid : Uuid) (m : GroupMember) : bool :=
  (gm_user_id m =? uid)
  || existsb (fun g => (g_id g =? gm_group_id m) && (g_created_by g =? uid)) (groups db)
  || existsb (fun gm => (gm_group_id gm =? gm_group_id gm)
                        && (gm_user_id gm =? uid)
                        && Role_eqb (gm_role gm) Admin) (group_members db).

End InsertPolicy.

(** ** More of the hook *)

(** Group.latest_message *)
Record LatestMessage := mkLatestMessage {
  lm_content : string;
  lm_created_at : Time;
  lm_sender_name : string
}.

(** A group as fetchUserGroups hands it to setGroups: the row with
    member_count, unread_count and latest_message added. *)
Record UserGroup := mkUserGroup {
  ug_group : Group;
  ug_member_count : nat;
  ug_unread_count : nat;
  ug_latest_message : option LatestMessage
}.

Definition processed (group : Group) : UserGroup := mkUserGroup group 0 0 None.

(** .order('updated_at', { ascending: false }) *)
Fixpoint insert_by_updated_at (g : Group) (l : list Group) : list Group :=
  match l with
  | [] => [g]
  | h :: t => if Nat.ltb (g_updated_at h) (g_updated_at g)
              then g :: h :: t
              else h :: insert_by_updated_at g t
  end.

Definition order_by_updated_at_desc (l : list Group) : list Group :=
  fold_right insert_by_updated_at [] l.

(** The first version of the hook, continued (part_000, lines 574-637).
    Each function gives the new value of the state it sets, from the
    value before ([prev]) where it may leave it. *)
Module FirstHook.

(** lines 574-614.  Without a user it returns at once and sets nothing. *)
Definition fetchUserGroups (be : Backend) (db : Db) (user : option Uuid)
    (prev : list UserGroup) : list UserGroup :=
  match user with
  | None => prev
  | Some me =>
    let membershipData := select_members be db me (fun m => gm_user_id m =? me) in
    match membershipData with
    | [] => []
    | _ :: _ =>
      let groupIds := map gm_group_id membershipData in
      let groupsData :=
        order_by_updated_at_desc
          (select_groups be db me (fun g => includes groupIds (g_id g))) in
      map processed groupsData
    end
  end.

(** lines 617-637: .eq('visibility', 'public'), latest first, .limit(20).
    Every call of it is made for a signed-in user [me]. *)
Definition fetchPublicGroups (be : Backend) (db : Db) (me : Uuid) : list PublicGroup :=
  let data :=
    firstn 20 (order_by_created_at_desc
                 (select_groups be db me
                    (fun g => Visibility_eqb (g_visibility g) Public))) in
  map (fun group => mkPublicGroup group 0) data.

End FirstHook.

(** part_000, lines 887-967 *)
Definition fetchUserGroups (be : Backend) (db : Db) (user : option Uuid)
  : list UserGroup :=
  match user with
  | None => []
  | Some me =>
    let membershipData := select_members be db me (fun m => gm_user_id m =? me) in
    let createdGroups :=
      order_by_updated_at_desc
        (select_groups be db me (fun g => g_created_by g =? me)) in
    let allUserGroups : list Group :=
      match membershipData with
      | [] => []
      | _ :: _ =>
        let groupIds := filter truthy (map gm_group_id membershipData) in
        match groupIds with
        | [] => []
        | _ :: _ =>
          order_by_updated_at_desc
            (select_groups be db me (fun g => includes groupIds (g_id g)))
        end
      end in
    let allUserGroups :=
      match createdGroups with
      | [] => allUserGroups
      | _ :: _ =>
        let existingIds := map g_id allUserGroups in
        let newCreatedGroups :=
          filter (fun g => negb (includes existingIds (g_id g))) createdGroups in
        (allUserGroups ++ newCreatedGroups)%list
      end in
    match allUserGroups with
    | [] => []
    | _ :: _ => map processed allUserGroups
    end
  end.

(** lines 1203-1205, on the state that fetchUserGroups set. *)
Definition isGroupMember (groups : list UserGroup) (groupId : Uuid) : bool :=
  existsb (fun group => g_id (ug_group group) =? groupId) groups.

(** The argument of updateGroup: a key that is absent is [None]; for
    profile_pic_url the value may be null. *)
Record GroupUpdates := mkGroupUpdates {
  u_name : option string;
  u_description : option string;
  u_profile_pic_url : option (option string)
}.

Definition apply_updates (updates : GroupUpdates) (g : Group) : Group :=
  mkGroup (g_id g)
          (match u_name updates with Some n => n | None => g_name g end)
          (match u_description updates with Some d => d | None => g_description g end)
          (match u_profile_pic_url updates with Some p => p | None => g_profile_pic_url g end)
          (g_visibility g) (g_created_by g) (g_created_at g) (g_updated_at g).

(** lines 1208-1230: .update(updates).eq('id', groupId).eq('created_by',
    user.id).  The UPDATE policy of groups is in none of the SQL files and
    is the argument [groups_update]; rows it hides are skipped without an
    error. *)
Definition updateGroup (groups_update : Db -> Uuid -> Group -> bool)
    (db : Db) (user : option Uuid) (groupId : Uuid) (updates : GroupUpdates)
  : Db * Result unit :=
  match user with
  | None => (db, Thrown NotAuthenticated)
  | Some me =>
    (mkDb (map (fun g => if (g_id g =? groupId) && (g_created_by g =? me)
                            && groups_update db me g
                         then apply_updates updates g else g)
               (groups db))
          (group_members db),
     Returned tt)
  end.

(** ** The sidebar of a group (part_003) *)

(** lines 214-220 *)
Definition toggleUserSelection (prev : list Uuid) (userId : Uuid) : list Uuid :=
  if includes prev userId
  then filter (fun id => negb (id =? userId)) prev
  else prev ++ [userId].



(** A group that belongs on the list of U's groups: the backend shows it
    to U, and U has a visible membership row for its id (an id that is
    not empty) or created it. *)
Definition listed_for (be : Backend) (db : Db) (U : Uuid) (g : Group) : Prop :=
  In g (groups db) /\ groups_select be db U g = true
  /\ ((g_id g <> EmptyString
       /\ exists m, In m (group_members db) /\ gm_user_id m = U
                    /\ members_select be db U m = true /\ gm_group_id m = g_id g)
      \/ g_created_by g = U).

(** The group ids of U's visible membership rows, as fetchUserGroups
    computes them (its local groupIds). *)
Definition groupIds (be : Backend) (db : Db) (me : Uuid) : list Uuid :=
  filter truthy (map gm_group_id
                     (select_members be db me (fun m => gm_user_id m =? me))).

(** Latest update first. *)
Definition latest_update_first (a b : Group) : Prop := g_updated_at b <= g_updated_at a.

(** * Group chat: src/hooks/useGroupMessages.ts and the policies of
    group_messages *)

Module Chat.

(** A row of group_messages (migration 20250920000002, lines 6-15). *)
Record MessageRow := mkMessageRow {
  msg_id : Uuid;
  msg_group_id : Uuid;
  msg_sender_id : Uuid;
  msg_content : string;
  msg_media_urls : list string;
  msg_is_edited : bool;
  msg_edited_at : option Time;
  msg_created_at : Time
}.

(** The joined profile of the sender. *)
Record Sender := mkSender {
  s_id : Uuid;
  s_username : string;
  s_full_name : string;
  s_profile_pic_url : option string
}.

(** interface GroupMessage: the row and the sender. *)
Record GroupMessage := mkGroupMessage {
  gmsg_row : MessageRow;
  gmsg_sender : Sender
}.

(** The tables and the messages that the hook holds for the open group. *)
Record State := mkState {
  st_db : Db;
  st_table : list MessageRow;
  st_messages : list GroupMessage
}.

(** Migration 20250920000002, lines 45-52: "Group members can send
    messages". *)
Definition members_can_send (db : Db) (uid : Uuid) (row : MessageRow) : bool :=
  (uid =? msg_sender_id row) && is_member db (msg_group_id row) uid.

(** The two subqueries of the later policies, read through the SELECT
    policies of the backend: SELECT group_id FROM group_members WHERE
    user_id = auth.uid(), and SELECT id FROM groups WHERE created_by =
    auth.uid(). *)
Definition member_case (be : Backend) (db : Db) (uid gid : Uuid) : bool :=
  existsb (fun gm => (gm_user_id gm =? uid) && (gm_group_id gm =? gid)
                     && members_select be db uid gm)
          (group_members db).

Definition creator_case (be : Backend) (db : Db) (uid gid : Uuid) : bool :=
  existsb (fun g => (g_created_by g =? uid) && (g_id g =? gid)
                    && groups_select be db uid g)
          (groups db).

(** part_004, lines 41-55: "Group members and creators can send
    messages". *)
Definition members_and_creators_can_send (be : Backend) (db : Db) (uid : Uuid)
    (row : MessageRow) : bool :=
  (uid =? msg_sender_id row)
  && (member_case be db uid (msg_group_id row)
      || creator_case be db uid (msg_group_id row)).

(** Migration 20250920000002, lines 37-43: "Group members can view group
    messages". *)
Definition members_can_view (db : Db) (uid : Uuid) (row : MessageRow) : bool :=
  is_member db (msg_group_id row) uid.

(** part_004, lines 60-72: "Group members and creators can view group
    messages". *)
Definition members_and_creators_can_view (be : Backend) (db : Db) (uid : Uuid)
    (row : MessageRow) : bool :=
  member_case be db uid (msg_group_id row)
  || creator_case be db uid (msg_group_id row).

(** Migration 20250920000002, lines 54-61: "Users can edit their own
    messages" and "Users can delete their own messages". *)
Definition own_message (uid : Uuid) (row : MessageRow) : bool :=
  uid =? msg_sender_id row.

Inductive Outcome :=
| Done                      (* the call returned *)
| Refused                   (* the error of the insert, thrown again *)
| NoProfile.                (* data.profiles is null: a TypeError *)

(** !s for a string: only the empty string is falsy. *)
Definition blank (s : string) : bool :=
  match s with
  | EmptyString => true
  | _ => false
  end.

Section Hook.

(** String.prototype.trim *)
Variable trim : string -> string.

(** The INSERT policy of group_messages in force, the profile that the
    join on sender_id gives back, and the UPDATE policy of groups. *)
Variable can_send : Db -> Uuid -> MessageRow -> bool.
Variable profile_of : Uuid -> option Sender.
Variable groups_update : Db -> Uuid -> Group -> bool.

(** lines 117-121: .update({ updated_at }).eq('id', groupId); its result
    is not looked at. *)
Definition touch_group (db : Db) (me groupId : Uuid) (now : Time) : Db :=
  mkDb (map (fun g => if (g_id g =? groupId) && groups_update db me g
                      then mkGroup (g_id g) (g_name g) (g_description g)
                                   (g_profile_pic_url g) (g_visibility g)
                                   (g_created_by g) (g_created_at g) now
                      else g)
            (groups db))
       (group_members db).

(** lines 74-130.  [new_id] and [created_at] are the defaults of the new
    row, [now] the time of the client after the insert. *)
Definition sendMessage (st : State) (groupId : option Uuid) (user : option Uuid)
    (content : string) (mediaUrls : list string)
    (new_id : Uuid) (created_at now : Time) : State * Outcome :=
  match groupId, user with
  | Some gid, Some me =>
    if blank (trim content) then (st, Done)
    else
      let row := mkMessageRow new_id gid me (trim content) mediaUrls false None created_at in
      if can_send (st_db st) me row then
        let st1 := mkState (st_db st) (st_table st ++ [row]) (st_messages st) in
        match profile_of me with
        | None => (st1, NoProfile)
        | Some profiles =>
          let newMessage := mkGroupMessage row profiles in
          (mkState (touch_group (st_db st) me gid now)
                   (st_table st ++ [row])
                   (st_messages st ++ [newMessage]),
           Done)
        end
      else (st, Refused)
  | _, _ => (st, Done)
  end.

(** lines 133-165.  [now] is the time written to the row, [now']
    the one written to the local copy. *)
Definition editMessage (st : State) (user : option Uuid) (messageId : Uuid)
    (newContent : string) (now now' : Time) : State :=
  match user with
  | None => st
  | Some me =>
    if blank (trim newContent) then st
    else
      mkState (st_db st)
        (map (fun row =>
                if (msg_id row =? messageId) && (msg_sender_id row =? me)
                   && own_message me row
                then mkMessageRow (msg_id row) (msg_group_id row) (msg_sender_id row)
                                  (trim newContent) (msg_media_urls row)
                                  true (Some now) (msg_created_at row)
                else row)
             (st_table st))
        (map (fun msg =>
                if msg_id (gmsg_row msg) =? messageId
                then mkGroupMessage
                       (mkMessageRow (msg_id (gmsg_row msg)) (msg_group_id (gmsg_row msg))
                                     (msg_sender_id (gmsg_row msg)) (trim newContent)
                                     (msg_media_urls (gmsg_row msg)) true (Some now')
                                     (msg_created_at (gmsg_row msg)))
                       (gmsg_sender msg)
                else msg)
             (st_messages st))
  end.

(** The SELECT policy of group_messages in force. *)
Variable can_view : Db -> Uuid -> MessageRow -> bool.

(** lines 168-187.  The delete reaches the rows that the SELECT policy
    shows to the caller and the DELETE policy lets her delete. *)
Definition deleteMessage (st : State) (user : option Uuid) (messageId : Uuid) : State :=
  match user with
  | None => st
  | Some me =>
    mkState (st_db st)
      (filter (fun row => negb ((msg_id row =? messageId) && (msg_sender_id row =? me)
                                && can_view (st_db st) me row
                                && own_message me row))
              (st_table st))
      (filter (fun msg => negb (msg_id (gmsg_row msg) =? messageId)) (st_messages st))
  end.

End Hook.

(** The handlers of the subscription, lines 256-261, 274-278 and 290, on
    the messages held: for an INSERT (after the message was fetched with
    its sender), an UPDATE and a DELETE. *)
Definition onInsert (prev : list GroupMessage) (newMessage : GroupMessage)
  : list GroupMessage :=
  let exists_ := existsb (fun msg => msg_id (gmsg_row msg) =? msg_id (gmsg_row newMessage))
                         prev in
  if exists_ then prev else prev ++ [newMessage].

Definition onUpdate (prev : list GroupMessage) (payload_new : MessageRow)
  : list GroupMessage :=
  map (fun msg => if msg_id (gmsg_row msg) =? msg_id payload_new
                  then mkGroupMessage payload_new (gmsg_sender msg)
                  else msg)
      prev.

Definition onDelete (prev : list GroupMessage) (payload_old_id : Uuid)
  : list GroupMessage :=
  filter (fun msg => negb (msg_id (gmsg_row msg) =? payload_old_id)) prev.

(** The ids of the messages held. *)
Definition ids (l : list GroupMessage) : list Uuid :=
  map (fun msg => msg_id (gmsg_row msg)) l.

End Chat.

(** A message of bob in alice's group, as stored and as held by the
    hook. *)
Definition bob_row : Chat.MessageRow :=
  Chat.mkMessageRow "x1" "g1" "bob" "hello" [] false None 50.

Definition bob_profile : Chat.Sender := Chat.mkSender "bob" "bob" "Bob" None.

Definition chat_alice_bob : Chat.State :=
  Chat.mkState db_alice_bob [bob_row] [Chat.mkGroupMessage bob_row bob_profile].

(** A group that qualifies for U's discovery list: the backend shows it
    to U and its id is not one of the ids that fetchPublicGroups
    excludes for U. *)
Definition qualifies (be : Backend) (db : Db) (U : Uuid) (g : Group) : bool :=
  groups_select be db U g && negb (includes (userGroupIds be db U) (g_id g)).

(** Alice's group with carol in it as well. *)
Definition db_alice_bob_carol : Db :=
  mkDb [study_group]
       [mkGroupMember "m1" "g1" "alice" Admin 10;
        mkGroupMember "m2" "g1" "bob" Member 11;
        mkGroupMember "m3" "g1" "carol" Member 12].

(** A second message, of alice. *)
Definition alice_row : Chat.MessageRow :=
  Chat.mkMessageRow "x2" "g1" "alice" "hi" [] false None 60.

Definition alice_profile : Chat.Sender := Chat.mkSender "alice" "alice" "Alice" None.


(** * Properties *)

(** ** The lookups *)

Lemma is_pair_true (gid uid : Uuid) (m : GroupMember) :
  is_pair gid uid m = true <-> gm_group_id m = gid /\ gm_user_id m = uid.
Proof.
  unfold is_pair. rewrite andb_true_iff, !String.eqb_eq. tauto.
Qed.

Lemma is_member_true (db : Db) (gid uid : Uuid) :
  is_member db gid uid = true <->
  exists m, In m (group_members db) /\ gm_group_id m = gid /\ gm_user_id m = uid.
Proof.
  unfold is_member. rewrite existsb_exists.
  split; intros [m [Hin H]]; exists m; split; auto; now apply is_pair_true.
Qed.

Lemma is_member_false (db : Db) (gid uid : Uuid) :
  is_member db gid uid = false <->
  forall m, In m (group_members db) -> ~ (gm_group_id m = gid /\ gm_user_id m = uid).
Proof.
  rewrite <- not_true_iff_false, is_member_true. split.
  - intros H m Hin Hm. apply H. now exists m.
  - intros H [m [Hin Hm]]. now apply (H m).
Qed.

Lemma is_creator_true (db : Db) (gid uid : Uuid) :
  is_creator db gid uid = true <->
  exists g, In g (groups db) /\ g_id g = gid /\ g_created_by g = uid.
Proof.
  unfold is_creator. rewrite existsb_exists.
  split; intros [g [Hin H]]; exists g; split; auto.
  - now rewrite andb_true_iff, !String.eqb_eq in H.
  - now rewrite andb_true_iff, !String.eqb_eq.
Qed.

Lemma has_role_true (db : Db) (gid uid : Uuid) (p : Role -> bool) :
  has_role db gid uid p = true <->
  exists m, In m (group_members db) /\ gm_group_id m = gid /\ gm_user_id m = uid
            /\ p (gm_role m) = true.
Proof.
  unfold has_role. rewrite existsb_exists.
  split; intros [m [Hin H]]; exists m; split; auto.
  - rewrite andb_true_iff, is_pair_true in H. tauto.
  - rewrite andb_true_iff, is_pair_true. tauto.
Qed.

Lemma admin_or_moderator_true (r : Role) :
  admin_or_moderator r = true <-> r = Admin \/ r = Moderator.
Proof.
  destruct r; simpl; split; intros H; auto; try discriminate;
    destruct H; discriminate.
Qed.

Lemma is_authorized_orb (db : Db) (uid gid : Uuid) :
  is_authorized db uid gid =
  is_creator db gid uid || has_role db gid uid admin_or_moderator.
Proof.
  unfold is_authorized. destruct (is_creator db gid uid); simpl; auto.
  now destruct (has_role db gid uid admin_or_moderator).
Qed.

(** ** The requests *)

Lemma filter_all {A : Type} (p : A -> bool) (l : list A) :
  (forall x, In x l -> p x = true) -> filter p l = l.
Proof.
  induction l as [| a l IH]; simpl; intros H; [reflexivity |].
  rewrite (H a (or_introl eq_refl)). f_equal. apply IH. auto.
Qed.

Lemma filter_none {A : Type} (p : A -> bool) (l : list A) :
  (forall x, In x l -> p x = false) -> filter p l = [].
Proof.
  induction l as [| a l IH]; simpl; intros H; [reflexivity |].
  rewrite (H a (or_introl eq_refl)). apply IH. auto.
Qed.

Lemma pair_of_is_pair (G T : Uuid) (m : GroupMember) :
  is_pair G T m = true <-> pair_of m = (G, T).
Proof.
  rewrite is_pair_true. unfold pair_of. split.
  - intros [-> ->]. reflexivity.
  - intros H. now inversion H.
Qed.

Lemma filter_pair_unique (G T : Uuid) (m : GroupMember) (l : list GroupMember) :
  NoDup (map pair_of l) -> In m l -> is_pair G T m = true ->
  filter (is_pair G T) l = [m].
Proof.
  induction l as [| a l IH]; simpl; intros Hnd Hin Hm; [contradiction |].
  inversion Hnd as [| x xs Hnotin Hnd']; subst.
  destruct Hin as [-> | Hin].
  - rewrite Hm. f_equal. apply filter_none. intros x Hx.
    apply not_true_iff_false. intros Hp. apply Hnotin.
    apply pair_of_is_pair in Hm, Hp. rewrite Hm, <- Hp. now apply in_map.
  - destruct (is_pair G T a) eqn:Ha.
    + exfalso. apply Hnotin.
      apply pair_of_is_pair in Hm, Ha. rewrite Ha, <- Hm. now apply in_map.
    + now apply IH.
Qed.

(** With one row per pair, the row of a pair is the only one. *)
Lemma the_row_of_a_pair (db : Db) (G T : Uuid) (old m : GroupMember) :
  unique_pairs db -> In old (group_members db) -> is_pair G T old = true ->
  In m (group_members db) -> is_pair G T m = true -> m = old.
Proof.
  intros Hu Hold Hp Hin Hm.
  assert (H : In m (filter (is_pair G T) (group_members db)))
    by (apply filter_In; auto).
  rewrite (filter_pair_unique G T old _ Hu Hold Hp) in H.
  destruct H as [H | []]. now symmetry.
Qed.

Lemma select_members_absent (be : Backend) (db : Db) (me G T : Uuid) :
  is_member db G T = false -> select_members be db me (is_pair G T) = [].
Proof.
  intros Habs. unfold select_members. apply filter_none. intros m Hin.
  rewrite is_member_false in Habs. apply andb_false_iff. left.
  apply not_true_iff_false. intros Hp. apply (Habs m Hin). now apply is_pair_true.
Qed.

(** With one row per pair, the check of addMember gives back the row of
    the pair when the SELECT policy shows it, and nothing when it hides
    it. *)
Lemma select_members_present (be : Backend) (db : Db) (me G T : Uuid)
    (old : GroupMember) :
  unique_pairs db -> In old (group_members db) -> is_pair G T old = true ->
  select_members be db me (is_pair G T)
  = if members_select be db me old then [old] else [].
Proof.
  intros Hu Hold Hp. unfold select_members.
  destruct (members_select be db me old) eqn:Hs.
  - rewrite (filter_ext_in _ (is_pair G T)).
    + now apply filter_pair_unique.
    + intros m Hin. destruct (is_pair G T m) eqn:Hm; [| reflexivity].
      now rewrite (the_row_of_a_pair db G T old m Hu Hold Hp Hin Hm), Hs.
  - apply filter_none. intros m Hin.
    destruct (is_pair G T m) eqn:Hm; [| reflexivity].
    now rewrite (the_row_of_a_pair db G T old m Hu Hold Hp Hin Hm), Hs.
Qed.

Lemma delete_member_absent (be : Backend) (db : Db) (me G T : Uuid) :
  is_member db G T = false -> delete_member be db me G T = db.
Proof.
  intros Habs. unfold delete_member. destruct db as [gs ms]. simpl. f_equal.
  apply filter_all. intros m Hin.
  destruct (is_pair G T m) eqn:Hp; [| reflexivity].
  exfalso. rewrite is_member_false in Habs.
  apply (Habs m Hin). now apply is_pair_true.
Qed.

Lemma insert_member_returning_absent (be : Backend) (db : Db) (me : Uuid)
    (row : GroupMember) :
  is_member db (gm_group_id row) (gm_user_id row) = false ->
  insert_member_returning be db me row
  = if members_insert be db me row && members_select be db me row
    then inl (mkDb (groups db) (group_members db ++ [row]))
    else inr RlsViolation.
Proof.
  intros Habs. unfold insert_member_returning, raw_insert_member.
  now rewrite Habs.
Qed.

Lemma insert_member_returning_present (be : Backend) (db : Db) (me : Uuid)
    (row : GroupMember) :
  is_member db (gm_group_id row) (gm_user_id row) = true ->
  exists e, insert_member_returning be db me row = inr e.
Proof.
  intros Hmem. unfold insert_member_returning, raw_insert_member. rewrite Hmem.
  destruct (members_insert be db me row && members_select be db me row); eauto.
Qed.

(** addMember for a pair that is absent: the check finds nothing, and
    the insert and the upsert after it are decided by the same two
    policies. *)
Lemma addMember_absent (be : Backend) (db : Db) (U G T : Uuid) (role : Role)
    (new_mid : Uuid) (now : Time) :
  is_member db G T = false ->
  addMember be db (Some U) G T role new_mid now
  = (if members_insert be db U (mkGroupMember new_mid G T role now)
        && members_select be db U (mkGroupMember new_mid G T role now)
     then (mkDb (groups db) (group_members db ++ [mkGroupMember new_mid G T role now]),
           Returned None)
     else (db, Thrown UnableToAddMember)).
Proof.
  intros Habs. unfold addMember.
  rewrite (select_members_absent be db U G T Habs). simpl.
  unfold addMember_after_check, addMemberAlternative, upsert_member. simpl.
  rewrite Habs, insert_member_returning_absent by exact Habs.
  now destruct (members_insert be db U _ && members_select be db U _).
Qed.

Lemma pair_of_overwrite (row m : GroupMember) :
  pair_of (overwrite row m) = pair_of m.
Proof.
  unfold overwrite, pair_of.
  destruct (is_pair (gm_group_id row) (gm_user_id row) m) eqn:Hp; [| reflexivity].
  apply is_pair_true in Hp. destruct Hp as [-> ->]. reflexivity.
Qed.

Lemma is_creator_app (db : Db) (g : Group) (ms : list GroupMember) :
  is_creator (mkDb (groups db ++ [g]) ms) (g_id g) (g_created_by g) = true.
Proof.
  unfold is_creator. simpl. rewrite existsb_app. simpl.
  rewrite !String.eqb_refl. simpl. now rewrite orb_true_r.
Qed.

Lemma view_groups_members_or_public_iff (db : Db) (U : Uuid) (g : Group) :
  Policy.view_groups_members_or_public db U g = true <->
  g_visibility g = Public \/ is_member db (g_id g) U = true.
Proof.
  unfold Policy.view_groups_members_or_public, is_member, is_pair.
  rewrite orb_true_iff. destruct (g_visibility g); simpl.
  - split; auto.
  - split; intros [H | H]; try discriminate; now right.
Qed.

(** ** C1: who may add a member *)

(** C1, counterexample.  Bob is a plain member of alice's private group:
    he did not create it and his row has the role member.  The SQL helper
    refuses him; the hook's addMember, which evaluates no role, adds
    carol as an admin for him once test_open_policy.sql is in force. *)
Lemma addMember_by_plain_member :
  is_authorized db_alice_bob "bob" "g1" = false
  /\ add_group_member db_alice_bob (Some "bob") "g1" "carol" Admin "m3" 12
     = (db_alice_bob, JsonError "Not authorized to add members to this group")
  /\ addMember be_test_open db_alice_bob (Some "bob") "g1" "carol" Admin "m3" 12
     = (mkDb [study_group]
             [mkGroupMember "m1" "g1" "alice" Admin 10;
              mkGroupMember "m2" "g1" "bob" Member 11;
              mkGroupMember "m3" "g1" "carol" Admin 12],
        Returned None).
Proof.
  repeat split; reflexivity.
Qed.

(** C1, amended.  For a target T that has no row in G.  The SQL helper
    add_group_member authorizes actor U exactly when U created G or the
    membership table has a row (G, U) whose role is admin or moderator;
    it appends the row for an authorized actor and answers every other
    actor "Not authorized to add members to this group" without writing.
    The hook's addMember evaluates no such condition: it appends the row
    exactly when the INSERT policy and the SELECT policy of group_members
    admit the new row for U, and else throws "Unable to add member ..."
    without writing. *)
Theorem canAddMember_helper_and_hook
    (be : Backend) (db : Db) (G U T : Uuid) (role : Role) (new_id : Uuid) (now : Time)
    (Habsent : is_member db G T = false) :
  let row := mkGroupMember new_id G T role now in
  let db' := mkDb (groups db) (group_members db ++ [row]) in
  (is_authorized db U G = true <->
     creator_of db G U \/
     exists m, In m (group_members db) /\ gm_group_id m = G /\ gm_user_id m = U
               /\ (gm_role m = Admin \/ gm_role m = Moderator))
  /\ add_group_member db (Some U) G T role new_id now
     = (if is_authorized db U G
        then (db', JsonSuccess "Member added successfully")
        else (db, JsonError "Not authorized to add members to this group"))
  /\ addMember be db (Some U) G T role new_id now
     = (if members_insert be db U row && members_select be db U row
        then (db', Returned None)
        else (db, Thrown UnableToAddMember)).
Proof.
  intros row db'. split; [| split].
  - rewrite is_authorized_orb, orb_true_iff, is_creator_true, has_role_true.
    unfold creator_of. split; (intros [H | [m H]]; [now left | right; exists m]).
    + now rewrite <- admin_or_moderator_true.
    + now rewrite admin_or_moderator_true.
  - unfold add_group_member, raw_insert_member. simpl.
    destruct (is_authorized db U G); simpl; [| reflexivity].
    now rewrite Habsent.
  - now apply addMember_absent.
Qed.

Lemma canAddMember_helper_and_hook_witness :
  (is_authorized db_alice_bob "alice" "g1" = true <->
     creator_of db_alice_bob "g1" "alice" \/
     exists m, In m (group_members db_alice_bob) /\ gm_group_id m = "g1"
               /\ gm_user_id m = "alice"
               /\ (gm_role m = Admin \/ gm_role m = Moderator))
  /\ add_group_member db_alice_bob (Some "alice") "g1" "carol" Member "m3" 12
     = (db_alice_bob_carol, JsonSuccess "Member added successfully")
  /\ addMember be_migration db_alice_bob (Some "alice") "g1" "carol" Member "m3" 12
     = (db_alice_bob, Thrown UnableToAddMember).
Proof.
  apply (canAddMember_helper_and_hook be_migration db_alice_bob
           "g1" "alice" "carol" Member "m3" 12).
  reflexivity.
Defined.

(** ** C2: who may view a group *)

(** C2, counterexample.  The tables hold alice's private group and no
    membership row of alice.  The SELECT policy of groups hides the group
    from alice, who created it: her select of the group is empty, and
    getUserRoleInGroup, whose creator check reads the selected row, gives
    her no role. *)
Lemma canView_creator_without_membership_row :
  creator_of db_alice_left "g1" "alice"
  /\ g_visibility study_group = Private
  /\ Policy.view_groups_members_or_public db_alice_left "alice" study_group = false
  /\ select_groups be_migration db_alice_left "alice" (fun g => g_id g =? "g1") = []
  /\ getUserRoleInGroup be_migration db_alice_left (Some "alice") "g1" = None.
Proof.
  split; [exists study_group; simpl; auto |].
  repeat split; reflexivity.
Qed.

(** C2, amended.  The SELECT policy of groups shows group g to user U
    exactly when g is public or the membership table has a row
    (g, U); it hides g exactly when g is private and U has no row, also
    when U created g.  A select of groups under that policy gives back
    the rows of the filter that are public or of which the caller is a
    member. *)
Theorem canView_public_or_member (db : Db) (U : Uuid) (g : Group) :
  (Policy.view_groups_members_or_public db U g = true <->
     g_visibility g = Public
     \/ exists m, In m (group_members db) /\ gm_group_id m = g_id g /\ gm_user_id m = U)
  /\ (Policy.view_groups_members_or_public db U g = false <->
        g_visibility g = Private /\ is_member db (g_id g) U = false)
  /\ (forall p, select_groups be_migration db U p
                = filter (fun g' => p g' && (Visibility_eqb (g_visibility g') Public
                                             || is_member db (g_id g') U))
                         (groups db)).
Proof.
  split; [| split].
  - rewrite view_groups_members_or_public_iff, is_member_true. tauto.
  - rewrite <- not_true_iff_false, view_groups_members_or_public_iff.
    destruct (g_visibility g), (is_member db (g_id g) U);
      intuition (auto; discriminate).
  - intros p. reflexivity.
Qed.

(** ** C3: creating a group *)

(** C3, counterexample.  A server that admits the insert of the group
    and refuses the caller's insert into group_members, and that lacks
    the helper function: alice's public group is written, her admin row
    is not.  The later createGroup returns the group, the first one
    throws the error of the second insert; both leave the group row
    without a membership row of its owner. *)
Lemma createGroup_group_without_owner_row :
  createGroup be_no_insert empty_db (Some "alice") chess_club "g2" "m1" 20
  = (mkDb [chess] [], Returned chess)
  /\ UseGroupsV1.createGroup be_no_insert empty_db (Some "alice") chess_club "g2" "m1" 20
     = (mkDb [chess] [], Thrown RlsViolation)
  /\ is_member (mkDb [chess] []) "g2" "alice" = false.
Proof.
  repeat split; reflexivity.
Qed.

(** C3, amended.  createGroup sends two separate requests.  The insert
    of the group hands the row back: it is accepted when the INSERT and
    the SELECT policy of groups admit the new row, and when it is
    rejected nothing is written.  Otherwise the group row is written, and
    the owner's admin row is written after it exactly when the second
    request is accepted: through add_group_member when the server has
    it, else through the direct insert, which the INSERT policy of
    group_members decides; when it is not accepted the group row stays
    without the owner's row (the first version throws the error, the
    later one returns the group). *)
Theorem createGroup_two_requests
    (be : Backend) (db : Db) (me : Uuid) (groupData : GroupData)
    (new_gid new_mid : Uuid) (now : Time) :
  let group := mkGroup new_gid (gd_name groupData) (gd_description groupData)
                       (gd_profile_pic_url groupData) (gd_visibility groupData)
                       me now now in
  let row := mkGroupMember new_mid new_gid me Admin now in
  let db1 := mkDb (groups db ++ [group]) (group_members db) in
  let db2 := mkDb (groups db ++ [group]) (group_members db ++ [row]) in
  createGroup be db (Some me) groupData new_gid new_mid now
  = (if groups_insert be db me group && groups_select be db me group then
       if (rpc_add_group_member be || members_insert be db1 me row)
          && negb (is_member db new_gid me)
       then (db2, Returned group)
       else (db1, Returned group)
     else (db, Thrown RlsViolation))
  /\
  UseGroupsV1.createGroup be db (Some me) groupData new_gid new_mid now
  = (if groups_insert be db me group && groups_select be db me group then
       if members_insert be db1 me row then
         if is_member db new_gid me
         then (db1, Thrown UniqueViolation)
         else (db2, Returned group)
       else (db1, Thrown RlsViolation)
     else (db, Thrown RlsViolation)).
Proof.
  intros group row db1 db2. split.
  - unfold createGroup, insert_group. fold group.
    destruct (groups_insert be db me group && groups_select be db me group);
      [| reflexivity].
    fold db1. unfold rpc, insert_member, add_group_member.
    assert (Hauth : is_authorized db1 me (g_id group) = true).
    { rewrite is_authorized_orb. unfold db1.
      change me with (g_created_by group) at 1.
      now rewrite is_creator_app. }
    change (g_id group) with new_gid in *. fold row.
    unfold raw_insert_member. simpl gm_group_id. simpl gm_user_id.
    change (is_member db1 new_gid me) with (is_member db new_gid me).
    destruct (rpc_add_group_member be); simpl.
    + rewrite Hauth. simpl. now destruct (is_member db new_gid me).
    + destruct (members_insert be db1 me row); simpl; [| reflexivity].
      now destruct (is_member db new_gid me).
  - unfold UseGroupsV1.createGroup, insert_group. fold group.
    destruct (groups_insert be db me group && groups_select be db me group);
      [| reflexivity].
    fold db1. unfold insert_member. change (g_id group) with new_gid. fold row.
    destruct (members_insert be db1 me row); [| reflexivity].
    unfold raw_insert_member. simpl gm_group_id. simpl gm_user_id.
    change (is_member db1 new_gid me) with (is_member db new_gid me).
    now destruct (is_member db new_gid me).
Qed.
(** ** C4 and C8: removing a member *)

(** C4, counterexample.  Bob is a plain member of alice's group: he is
    not its creator, has no admin role and is not the target.  His call
    to remove alice returns without an error, and with it alice's row is
    gone.  Where the DELETE policy hides the row the call returns without
    an error all the same. *)
Lemma removeMember_by_plain_member :
  spec_canRemoveMember db_alice_bob "g1" "bob" "alice" = false
  /\ removeMember be_open db_alice_bob (Some "bob") "g1" "alice"
     = (mkDb [study_group] [mkGroupMember "m2" "g1" "bob" Member 11], Returned tt)
  /\ removeMember be_no_delete db_alice_bob (Some "bob") "g1" "alice"
     = (db_alice_bob, Returned tt).
Proof.
  repeat split; reflexivity.
Qed.

(** C4, amended.  removeMember checks that a user is signed in and
    nothing else: without one it throws 'User not authenticated' and
    writes nothing; for every signed-in actor it returns without an error,
    the groups are as before, and the membership rows left are those that
    are not a row (G, T) which the SELECT policy shows to the actor and
    the DELETE policy lets the actor delete. *)
Theorem removeMember_any_signed_in_actor
    (be : Backend) (db : Db) (G U T : Uuid) :
  removeMember be db None G T = (db, Thrown NotAuthenticated)
  /\ exists db',
       removeMember be db (Some U) G T = (db', Returned tt)
       /\ groups db' = groups db
       /\ forall m, In m (group_members db') <->
                    In m (group_members db)
                    /\ ~ (gm_group_id m = G /\ gm_user_id m = T
                          /\ members_select be db U m = true
                          /\ members_delete be db U m = true).
Proof.
  split; [reflexivity |].
  exists (delete_member be db U G T).
  split; [reflexivity |]. split; [reflexivity |].
  intros m. simpl. rewrite filter_In, negb_true_iff.
  rewrite <- not_true_iff_false, !andb_true_iff, is_pair_true. tauto.
Qed.

(** C8.  When the actor is authorized for the pair (G, T), that is the
    backend shows its rows to the actor and lets the actor delete them,
    the first removeMember returns without an error and leaves no row of
    the pair, and a second one returns without an error and leaves the
    state of the first. *)
Theorem removeMember_twice
    (be : Backend) (db : Db) (G U T : Uuid)
    (Hauth : forall m, In m (group_members db) -> is_pair G T m = true ->
                       members_select be db U m = true
                       /\ members_delete be db U m = true) :
  exists db1,
    removeMember be db (Some U) G T = (db1, Returned tt)
    /\ is_member db1 G T = false
    /\ removeMember be db1 (Some U) G T = (db1, Returned tt).
Proof.
  exists (delete_member be db U G T).
  assert (Hgone : is_member (delete_member be db U G T) G T = false).
  { apply is_member_false. intros m Hin Hm. simpl in Hin.
    apply filter_In in Hin. destruct Hin as [Hin Hk].
    apply is_pair_true in Hm. destruct (Hauth m Hin Hm) as [Hs Hd].
    rewrite Hm, Hs, Hd in Hk. discriminate. }
  repeat split; [exact Hgone |].
  unfold removeMember. f_equal. now apply delete_member_absent.
Qed.

Lemma removeMember_twice_witness :
  exists db1,
    removeMember be_migration db_alice_bob (Some "alice") "g1" "bob" = (db1, Returned tt)
    /\ is_member db1 "g1" "bob" = false
    /\ removeMember be_migration db1 (Some "alice") "g1" "bob" = (db1, Returned tt).
Proof.
  apply (removeMember_twice be_migration db_alice_bob "g1" "alice" "bob").
  intros m Hin Hp. simpl in Hin.
  destruct Hin as [<- | [<- | []]]; [discriminate | split; reflexivity].
Defined.

(** ** C5 and C10: adding a member who is present *)

(** C5, counterexample.  Alice created the group and bob is a member of
    it; her addMember for bob finds his row, writes nothing and returns
    without an error. *)
Lemma addMember_present_returns_silently :
  is_authorized db_alice_bob "alice" "g1" = true
  /\ is_member db_alice_bob "g1" "bob" = true
  /\ addMember be_test_open db_alice_bob (Some "alice") "g1" "bob" Moderator "m3" 12
     = (db_alice_bob, Returned None).
Proof.
  repeat split; reflexivity.
Qed.

(** C5, amended.  Let add_group_member's check hold for the actor and
    let the table have one row per pair.  When the pair (G, T) is
    present, add_group_member answers the failure 'User is already a
    member of this group'; addMember returns without an error when the
    SELECT policy shows the row to the actor, and throws 'Unable to add
    member ...' when it hides it; none of them writes.  When the pair is
    absent, add_group_member appends the row; addMember appends it when
    the INSERT and the SELECT policy of group_members admit the new row
    for the actor, and else throws 'Unable to add member ...' and writes
    nothing. *)
Theorem addMember_present_or_inserted
    (be : Backend) (db : Db) (G U T : Uuid) (role : Role) (new_mid : Uuid) (now : Time)
    (Hauth : is_authorized db U G = true)
    (Huniq : unique_pairs db) :
  let row := mkGroupMember new_mid G T role now in
  let db' := mkDb (groups db) (group_members db ++ [row]) in
  add_group_member db (Some U) G T role new_mid now
  = (if is_member db G T
     then (db, JsonError "User is already a member of this group")
     else (db', JsonSuccess "Member added successfully"))
  /\
  addMember be db (Some U) G T role new_mid now
  = (if is_member db G T then
       if existsb (fun m => is_pair G T m && members_select be db U m)
                  (group_members db)
       then (db, Returned None)
       else (db, Thrown UnableToAddMember)
     else
       if members_insert be db U row && members_select be db U row
       then (db', Returned None)
       else (db, Thrown UnableToAddMember)).
Proof.
  intros row db'. split.
  - unfold add_group_member, raw_insert_member. simpl. rewrite Hauth. simpl.
    now destruct (is_member db G T).
  - destruct (is_member db G T) eqn:Hmem; [| now apply addMember_absent].
    pose proof Hmem as Hex. apply is_member_true in Hex.
    destruct Hex as [old [Hold Hp]]. apply is_pair_true in Hp.
    assert (Hvis : existsb (fun m => is_pair G T m && members_select be db U m)
                           (group_members db)
                   = members_select be db U old).
    { destruct (members_select be db U old) eqn:Hs.
      - apply existsb_exists. exists old. now rewrite Hp, Hs.
      - apply not_true_iff_false. intros He. apply existsb_exists in He.
        destruct He as [m [Hin Hm]]. apply andb_true_iff in Hm.
        destruct Hm as [Hm Hsm].
        rewrite (the_row_of_a_pair db G T old m Huniq Hold Hp Hin Hm) in Hsm.
        congruence. }
    rewrite Hvis. unfold addMember.
    rewrite (select_members_present be db U G T old Huniq Hold Hp).
    destruct (members_select be db U old) eqn:Hs; [reflexivity |].
    simpl. unfold addMember_after_check. fold row.
    destruct (insert_member_returning_present be db U row Hmem) as [e ->].
    unfold addMemberAlternative, upsert_member. fold row. simpl.
    rewrite Hmem.
    assert (Hall : forallb (fun m => negb (is_pair G T m)
                                     || (members_select be db U m
                                         && members_update be db U m
                                         && members_update be db U (overwrite row m)
                                         && members_select be db U (overwrite row m)))
                           (group_members db) = false).
    { apply not_true_iff_false. intros Hall.
      rewrite forallb_forall in Hall. specialize (Hall old Hold).
      rewrite Hp, Hs in Hall. discriminate. }
    now rewrite Hall.
Qed.

Lemma addMember_present_or_inserted_witness :
  (add_group_member db_alice_bob (Some "alice") "g1" "bob" Moderator "m3" 12
   = (db_alice_bob, JsonError "User is already a member of this group")
   /\ addMember be_test_open db_alice_bob (Some "alice") "g1" "bob" Moderator "m3" 12
      = (db_alice_bob, Returned None))
  /\
  (add_group_member db_alice_bob (Some "alice") "g1" "carol" Member "m3" 12
   = (db_alice_bob_carol, JsonSuccess "Member added successfully")
   /\ addMember be_test_open db_alice_bob (Some "alice") "g1" "carol" Member "m3" 12
      = (db_alice_bob_carol, Returned None)).
Proof.
  assert (Hu : unique_pairs db_alice_bob).
  { unfold unique_pairs. simpl.
    repeat constructor; simpl; intuition discriminate. }
  split.
  - apply (addMember_present_or_inserted be_test_open db_alice_bob
             "g1" "alice" "bob" Moderator "m3" 12 eq_refl Hu).
  - apply (addMember_present_or_inserted be_test_open db_alice_bob
             "g1" "alice" "carol" Member "m3" 12 eq_refl Hu).
Defined.


(** ** C6: joining a public group *)

(** Each INSERT policy that the SQL files put on group_members admits a
    user's own row for a public group. *)
Lemma insert_policies_admit_public_join (db : Db) (U : Uuid) (m : GroupMember) :
  gm_user_id m = U -> is_group_public db (gm_group_id m) = true ->
  Policy.users_can_join_groups db U m = true
  /\ Policy.join_or_added_by_admins db U m = true
  /\ Policy.non_recursive_member_insertion db U m = true
  /\ Policy.allow_all db U m = true.
Proof.
  intros <- Hpub.
  unfold Policy.users_can_join_groups, Policy.join_or_added_by_admins,
    Policy.non_recursive_member_insertion, Policy.allow_all.
  rewrite Hpub, String.eqb_refl. simpl. auto.
Qed.

Lemma is_member_app (db : Db) (row : GroupMember) :
  is_member (mkDb (groups db) (group_members db ++ [row]))
            (gm_group_id row) (gm_user_id row) = true.
Proof.
  unfold is_member, is_pair. simpl. rewrite existsb_app. simpl.
  rewrite !String.eqb_refl. simpl. now rewrite orb_true_r.
Qed.

(** C6.  G is public, U has no row in G, and the INSERT policy admits a
    user's own rows for public groups.  Then joinGroup returns without an
    error and appends the row (G, U) with role member, and a second
    joinGroup on the new state throws the unique violation, which is the
    failure AlreadyMember, and writes nothing. *)
Theorem joinGroup_then_AlreadyMember
    (be : Backend) (db : Db) (G U : Uuid) (mid1 mid2 : Uuid) (t1 t2 : Time)
    (Hpublic : is_group_public db G = true)
    (Habsent : is_member db G U = false)
    (Hpolicy : forall db0 m, gm_user_id m = U ->
                 is_group_public db0 (gm_group_id m) = true ->
                 members_insert be db0 U m = true) :
  let db1 := mkDb (groups db) (group_members db ++ [mkGroupMember mid1 G U Member t1]) in
  joinGroup be db (Some U) G mid1 t1 = (db1, Returned tt)
  /\ joinGroup be db1 (Some U) G mid2 t2 = (db1, Thrown UniqueViolation)
  /\ failure_of UniqueViolation = AlreadyMember.
Proof.
  intros db1. repeat split.
  - unfold joinGroup, insert_member, raw_insert_member.
    rewrite Hpolicy by (simpl; auto). simpl. now rewrite Habsent.
  - unfold joinGroup, insert_member, raw_insert_member.
    rewrite Hpolicy by (simpl; auto). simpl gm_group_id. simpl gm_user_id.
    unfold db1.
    change G with (gm_group_id (mkGroupMember mid1 G U Member t1)) at 3.
    change U with (gm_user_id (mkGroupMember mid1 G U Member t1)) at 4.
    now rewrite is_member_app.
Qed.

Lemma joinGroup_then_AlreadyMember_witness :
  joinGroup be_migration db_chess (Some "bob") "g2" "m2" 21
  = (mkDb [chess] [mkGroupMember "m1" "g2" "alice" Admin 20;
                   mkGroupMember "m2" "g2" "bob" Member 21],
     Returned tt)
  /\ joinGroup be_migration
               (mkDb [chess] [mkGroupMember "m1" "g2" "alice" Admin 20;
                              mkGroupMember "m2" "g2" "bob" Member 21])
               (Some "bob") "g2" "m9" 22
     = (mkDb [chess] [mkGroupMember "m1" "g2" "alice" Admin 20;
                      mkGroupMember "m2" "g2" "bob" Member 21],
        Thrown UniqueViolation)
  /\ failure_of UniqueViolation = AlreadyMember.
Proof.
  apply (joinGroup_then_AlreadyMember be_migration db_chess "g2" "bob" "m2" "m9" 21 22).
  - reflexivity.
  - reflexivity.
  - intros db0 m Hu Hpub.
    now apply (insert_policies_admit_public_join db0 "bob" m Hu Hpub).
Defined.

(** ** C7: at most one row per pair *)

Lemma unique_pairs_filter (keep : GroupMember -> bool) (ms : list GroupMember) :
  NoDup (map pair_of ms) -> NoDup (map pair_of (filter keep ms)).
Proof.
  intros Hnd. induction ms as [| m ms IH]; simpl in *; [constructor |].
  inversion Hnd as [| x xs Hnotin Hnd']; subst.
  destruct (keep m); simpl; [| now apply IH].
  constructor; [| now apply IH].
  intros Hin. apply Hnotin. apply in_map_iff in Hin.
  destruct Hin as [y [Hy Hin]]. apply filter_In in Hin.
  rewrite <- Hy. apply in_map. tauto.
Qed.

Lemma NoDup_snoc {A : Type} (l : list A) (x : A) :
  NoDup l -> ~ In x l -> NoDup (l ++ [x]).
Proof.
  induction l as [| a l IH]; simpl; intros Hnd Hx.
  - constructor; [intros [] | constructor].
  - inversion Hnd as [| y ys Hnotin Hnd']; subst.
    constructor.
    + rewrite in_app_iff. simpl. intros [H | [H | []]]; [now apply Hnotin |].
      apply Hx. now left.
    + apply IH; [exact Hnd' |]. intros H. apply Hx. now right.
Qed.

Lemma unique_raw_insert_member (db db' : Db) (row : GroupMember) :
  unique_pairs db -> raw_insert_member db row = inl db' -> unique_pairs db'.
Proof.
  unfold raw_insert_member, unique_pairs. intros Hu H.
  destruct (is_member db (gm_group_id row) (gm_user_id row)) eqn:Hmem;
    [discriminate |].
  inversion H; subst; clear H. simpl. rewrite map_app. simpl.
  apply NoDup_snoc; [exact Hu |].
  intros Hin. apply in_map_iff in Hin. destruct Hin as [m [Hm Hin]].
  rewrite is_member_false in Hmem. apply (Hmem m Hin).
  unfold pair_of in Hm. now inversion Hm.
Qed.

Lemma unique_insert_member (be : Backend) (db db' : Db) (me : Uuid) (row : GroupMember) :
  unique_pairs db -> insert_member be db me row = inl db' -> unique_pairs db'.
Proof.
  unfold insert_member. intros Hu H.
  destruct (members_insert be db me row); [| discriminate].
  now apply (unique_raw_insert_member db db' row).
Qed.

Lemma unique_insert_group (be : Backend) (db db' : Db) (me : Uuid) (g : Group) :
  unique_pairs db -> insert_group be db me g = inl db' -> unique_pairs db'.
Proof.
  unfold insert_group. intros Hu H.
  destruct (groups_insert be db me g && groups_select be db me g); [| discriminate].
  inversion H; subst. exact Hu.
Qed.

Lemma unique_delete_member (be : Backend) (db : Db) (me G T : Uuid) :
  unique_pairs db -> unique_pairs (delete_member be db me G T).
Proof.
  unfold unique_pairs, delete_member. simpl. apply unique_pairs_filter.
Qed.

Lemma unique_insert_member_returning (be : Backend) (db db' : Db) (me : Uuid)
    (row : GroupMember) :
  unique_pairs db -> insert_member_returning be db me row = inl db' -> unique_pairs db'.
Proof.
  unfold insert_member_returning. intros Hu H.
  destruct (members_insert be db me row && members_select be db me row);
    [| discriminate].
  now apply (unique_raw_insert_member db db' row).
Qed.

Lemma unique_upsert_member (be : Backend) (db db' : Db) (me : Uuid)
    (row : GroupMember) (data : list GroupMember) :
  unique_pairs db -> upsert_member be db me row = inl (db', data) -> unique_pairs db'.
Proof.
  unfold upsert_member. intros Hu H.
  destruct (is_member db (gm_group_id row) (gm_user_id row)).
  - destruct (forallb _ _); [| discriminate].
    inversion H; subst; clear H. unfold unique_pairs. simpl.
    rewrite map_map. erewrite map_ext; [exact Hu |].
    intros m. apply pair_of_overwrite.
  - destruct (insert_member_returning be db me row) as [db1 | e] eqn:Hi;
      [| discriminate].
    inversion H; subst. now apply (unique_insert_member_returning be db db' me row).
Qed.

Lemma unique_add_group_member (db : Db) (auth_uid : option Uuid) (G T : Uuid)
    (role : Role) (new_id : Uuid) (now : Time) :
  unique_pairs db ->
  unique_pairs (fst (add_group_member db auth_uid G T role new_id now)).
Proof.
  intros Hu. unfold add_group_member.
  destruct auth_uid as [u |]; [| exact Hu].
  destruct (negb (is_authorized db u G)); [exact Hu |].
  destruct (is_member db G T); [exact Hu |].
  destruct (raw_insert_member db _) as [db' | e] eqn:Hi; [| exact Hu].
  simpl. now apply (unique_raw_insert_member db db' _ Hu Hi).
Qed.

Lemma unique_run (be : Backend) (db : Db) (c : Call) :
  unique_pairs db -> unique_pairs (run be db c).
Proof.
  intros Hu. destruct c as [user gd gid mid now | user gd gid mid now
                           | user gid mid now | user gid
                           | user gid uid role mid now | user gid uid
                           | auth gid uid role mid now]; simpl.
  - (* createGroup *)
    unfold createGroup. destruct user as [me |]; [| exact Hu].
    destruct (insert_group be db me _) as [db1 | e] eqn:Hg; [| exact Hu].
    pose proof (unique_insert_group be db db1 me _ Hu Hg) as Hu1.
    unfold rpc. destruct (rpc_add_group_member be).
    + pose proof (unique_add_group_member db1 (Some me) gid me Admin mid now Hu1) as H.
      simpl g_id. destruct (add_group_member db1 (Some me) gid me Admin mid now).
      exact H.
    + destruct (insert_member be db1 me _) as [db2 | e] eqn:Hm; [| exact Hu1].
      simpl. now apply (unique_insert_member be db1 db2 me _ Hu1 Hm).
  - (* the first createGroup *)
    unfold UseGroupsV1.createGroup. destruct user as [me |]; [| exact Hu].
    destruct (insert_group be db me _) as [db1 | e] eqn:Hg; [| exact Hu].
    pose proof (unique_insert_group be db db1 me _ Hu Hg) as Hu1.
    destruct (insert_member be db1 me _) as [db2 | e] eqn:Hm; [| exact Hu1].
    simpl. now apply (unique_insert_member be db1 db2 me _ Hu1 Hm).
  - (* joinGroup *)
    unfold joinGroup. destruct user as [me |]; [| exact Hu].
    destruct (insert_member be db me _) as [db1 | e] eqn:Hm; [| exact Hu].
    simpl. now apply (unique_insert_member be db db1 me _ Hu Hm).
  - (* leaveGroup *)
    unfold leaveGroup. destruct user as [me |]; [| exact Hu].
    simpl. now apply unique_delete_member.
  - (* addMember *)
    unfold addMember. destruct user as [me |]; [| exact Hu].
    destruct (single _); [exact Hu |].
    unfold addMember_after_check.
    destruct (insert_member_returning be db me _) as [db1 | e] eqn:Hm.
    + simpl. now apply (unique_insert_member_returning be db db1 me _ Hu Hm).
    + unfold addMemberAlternative.
      destruct (upsert_member be db me _) as [[db1 data] | e'] eqn:Hup; [| exact Hu].
      simpl. now apply (unique_upsert_member be db db1 me _ data Hu Hup).
  - (* removeMember *)
    unfold removeMember. destruct user as [me |]; [| exact Hu].
    simpl. now apply unique_delete_member.
  - (* add_group_member *)
    now apply unique_add_group_member.
Qed.

(** C7.  Every state that calls of the hook and of add_group_member
    reach from the empty database has at most one membership row per
    (group, user) pair, and so has the state after any further call:
    createGroup (either version), joinGroup, leaveGroup, addMember,
    removeMember, add_group_member. *)
Theorem unique_pairs_invariant (be : Backend) (db : Db) (Hreach : reachable be db) :
  unique_pairs db /\ forall c, unique_pairs (run be db c).
Proof.
  assert (Hu : unique_pairs db).
  { induction Hreach as [| db c _ IH].
    - constructor.
    - now apply unique_run. }
  split; [exact Hu |]. intros c. now apply unique_run.
Qed.

Lemma unique_pairs_invariant_witness :
  unique_pairs (run be_open
                    (run be_open empty_db (CreateGroup (Some "alice") algebra "g1" "m1" 10))
                    (JoinGroup (Some "bob") "g1" "m2" 11))
  /\ forall c, unique_pairs
                 (run be_open
                      (run be_open
                           (run be_open empty_db
                                (CreateGroup (Some "alice") algebra "g1" "m1" 10))
                           (JoinGroup (Some "bob") "g1" "m2" 11))
                      c).
Proof.
  apply (unique_pairs_invariant be_open).
  apply reachable_run. apply reachable_run. apply reachable_empty.
Defined.

(** ** C9: the discovery list *)

Lemma In_insert_by_created_at (x g : Group) (l : list Group) :
  In x (insert_by_created_at g l) <-> x = g \/ In x l.
Proof.
  induction l as [| h t IH]; simpl.
  - intuition.
  - destruct (Nat.ltb (g_created_at h) (g_created_at g)); simpl.
    + intuition.
    + rewrite IH. intuition.
Qed.

Lemma In_order_by_created_at_desc (x : Group) (l : list Group) :
  In x (order_by_created_at_desc l) <-> In x l.
Proof.
  induction l as [| h t IH]; simpl; [tauto |].
  rewrite In_insert_by_created_at, IH. intuition.
Qed.

Lemma length_filter_insert (p : Group -> bool) (g : Group) (l : list Group) :
  List.length (filter p (insert_by_created_at g l)) = List.length (filter p (g :: l)).
Proof.
  induction l as [| h t IH]; [reflexivity |].
  simpl insert_by_created_at.
  destruct (Nat.ltb (g_created_at h) (g_created_at g)); [reflexivity |].
  simpl in *. destruct (p h), (p g); simpl in *; lia.
Qed.

Lemma length_filter_order (p : Group -> bool) (l : list Group) :
  List.length (filter p (order_by_created_at_desc l)) = List.length (filter p l).
Proof.
  induction l as [| h t IH]; [reflexivity |].
  simpl order_by_created_at_desc. rewrite length_filter_insert.
  simpl. destruct (p h); simpl; lia.
Qed.

Lemma In_firstn_In {A : Type} (n : nat) (x : A) (l : list A) :
  In x (firstn n l) -> In x l.
Proof.
  revert l. induction n as [| n IH]; intros [| a l]; simpl; try tauto.
  intros [H | H]; auto.
Qed.

Lemma In_new_Set (x : Uuid) (ids : list Uuid) :
  In x (new_Set ids) <-> In x ids.
Proof.
  induction ids as [| a l IH]; simpl; [tauto |].
  rewrite filter_In, IH, negb_true_iff, String.eqb_neq.
  destruct (String.eqb_spec a x); intuition congruence.
Qed.

Lemma includes_true (ids : list Uuid) (x : Uuid) :
  includes ids x = true <-> In x ids.
Proof.
  unfold includes. rewrite existsb_exists. split.
  - intros [y [Hin Hy]]. apply String.eqb_eq in Hy. now subst.
  - intros Hin. exists x. split; [exact Hin | apply String.eqb_refl].
Qed.

Lemma truthy_true (s : Uuid) : truthy s = true <-> s <> EmptyString.
Proof.
  destruct s; simpl; split; intros H; congruence.
Qed.

(** What puts an id on the list of excluded ids. *)
Lemma In_userGroupIds (be : Backend) (db : Db) (U x : Uuid) :
  In x (userGroupIds be db U) <->
  x <> EmptyString /\
  ((exists m, In m (group_members db) /\ gm_user_id m = U
              /\ members_select be db U m = true /\ gm_group_id m = x)
   \/ (exists g, In g (groups db) /\ g_created_by g = U
                 /\ groups_select be db U g = true /\ g_id g = x)).
Proof.
  unfold userGroupIds, select_members, select_groups.
  rewrite In_new_Set, in_app_iff, !filter_In, !in_map_iff, truthy_true.
  split.
  - intros [[[m [Hm Hin]] Hx] | [[g [Hg Hin]] Hx]]; (split; [exact Hx |]).
    + left. exists m. apply filter_In in Hin.
      rewrite andb_true_iff, String.eqb_eq in Hin. tauto.
    + right. exists g. apply filter_In in Hin.
      rewrite andb_true_iff, String.eqb_eq in Hin. tauto.
  - intros [Hx [[m [Hin [Hu [Hs Hm]]]] | [g [Hin [Hc [Hs Hg]]]]]].
    + left. split; [| exact Hx]. exists m. split; [exact Hm |].
      apply filter_In. rewrite andb_true_iff, String.eqb_eq. tauto.
    + right. split; [| exact Hx]. exists g. split; [exact Hg |].
      apply filter_In. rewrite andb_true_iff, String.eqb_eq. tauto.
Qed.

(** C9, counterexample.  Alice created none of zed's twenty-one groups
    and belongs to none; the discovery list has twenty of them and lacks
    the oldest. *)
Lemma fetchPublicGroups_omits_a_group :
  In (zed_group 0) (groups db_twenty_one)
  /\ is_creator db_twenty_one (g_id (zed_group 0)) "alice" = false
  /\ is_member db_twenty_one (g_id (zed_group 0)) "alice" = false
  /\ List.length (fetchPublicGroups be_open db_twenty_one (Some "alice")) = 20
  /\ existsb (fun pg => g_id (pg_group pg) =? g_id (zed_group 0))
             (fetchPublicGroups be_open db_twenty_one (Some "alice")) = false.
Proof.
  split; [simpl; auto |]. vm_compute. auto.
Qed.

Lemma fetchPublicGroups_unfold (be : Backend) (db : Db) (U : Uuid) :
  fetchPublicGroups be db (Some U)
  = map (fun g => mkPublicGroup (as_public g) 0) (firstn 20 (notExcluded be db U)).
Proof. reflexivity. Qed.

Lemma In_notExcluded (be : Backend) (db : Db) (U : Uuid) (g : Group) :
  In g (notExcluded be db U) <->
  In g (groups db) /\ groups_select be db U g = true
  /\ ~ In (g_id g) (userGroupIds be db U).
Proof.
  unfold notExcluded, select_groups.
  rewrite filter_In, In_order_by_created_at_desc, filter_In, negb_true_iff.
  rewrite <- not_true_iff_false, includes_true. simpl. tauto.
Qed.

Lemma sorted_insert_by_created_at (g : Group) (l : list Group) :
  StronglySorted latest_first l ->
  StronglySorted latest_first (insert_by_created_at g l).
Proof.
  induction l as [| h t IH]; simpl; intros Hs.
  - constructor; constructor.
  - inversion Hs as [| x xs Hs' Hall]; subst.
    destruct (Nat.ltb (g_created_at h) (g_created_at g)) eqn:Hlt.
    + apply Nat.ltb_lt in Hlt. constructor; [exact Hs |].
      constructor; [unfold latest_first; lia |].
      rewrite Forall_forall in *. intros x Hx.
      specialize (Hall x Hx). unfold latest_first in *. lia.
    + apply Nat.ltb_ge in Hlt. constructor; [now apply IH |].
      rewrite Forall_forall in *. intros x Hx.
      apply In_insert_by_created_at in Hx. destruct Hx as [-> | Hx]; auto.
Qed.

Lemma sorted_order_by_created_at_desc (l : list Group) :
  StronglySorted latest_first (order_by_created_at_desc l).
Proof.
  induction l as [| h t IH]; simpl; [constructor |].
  now apply sorted_insert_by_created_at.
Qed.

Lemma sorted_filter {A : Type} (R : A -> A -> Prop) (p : A -> bool) (l : list A) :
  StronglySorted R l -> StronglySorted R (filter p l).
Proof.
  induction 1 as [| a l Hs IH Hall]; simpl; [constructor |].
  destruct (p a); [| exact IH]. constructor; [exact IH |].
  rewrite Forall_forall in *. intros x Hx. apply filter_In in Hx. now apply Hall.
Qed.

Lemma sorted_app {A : Type} (R : A -> A -> Prop) (l1 l2 : list A) :
  StronglySorted R (l1 ++ l2) ->
  forall x y, In x l1 -> In y l2 -> R x y.
Proof.
  induction l1 as [| a l1 IH]; simpl; intros Hs x y Hx Hy; [contradiction |].
  inversion Hs as [| z zs Hs' Hall]; subst.
  destruct Hx as [-> | Hx].
  - rewrite Forall_forall in Hall. apply Hall. apply in_or_app. now right.
  - now apply IH.
Qed.

Lemma qualifies_true (be : Backend) (db : Db) (U : Uuid) (g : Group) :
  qualifies be db U g = true <->
  groups_select be db U g = true /\ ~ In (g_id g) (userGroupIds be db U).
Proof.
  unfold qualifies.
  rewrite andb_true_iff, negb_true_iff, <- not_true_iff_false, includes_true.
  tauto.
Qed.

Lemma In_notExcluded_qualifies (be : Backend) (db : Db) (U : Uuid) (g : Group) :
  In g (notExcluded be db U) <-> In g (groups db) /\ qualifies be db U g = true.
Proof.
  rewrite In_notExcluded, qualifies_true. tauto.
Qed.

Lemma length_notExcluded_qualifies (be : Backend) (db : Db) (U : Uuid) :
  List.length (notExcluded be db U)
  = List.length (filter (qualifies be db U) (groups db)).
Proof.
  unfold notExcluded. rewrite length_filter_order.
  unfold select_groups, qualifies.
  generalize (userGroupIds be db U) (groups_select be db U). intros ex sel.
  induction (groups db) as [| g l IH]; [reflexivity |].
  simpl in *. destruct (sel g); simpl; [| exact IH].
  destruct (negb (includes ex (g_id g))); simpl; now rewrite IH.
Qed.

(** C9, amended.  A group qualifies for U's discovery list when the
    backend shows it to U and its id is not excluded; the excluded ids
    are the non-empty group ids of the membership rows of U and of the
    groups created by U that the backend shows to U.  The discovery list
    has min(20, number of qualifying groups) entries; each entry is a
    qualifying group with visibility set to 'public' whatever the stored
    value and member_count 0; a qualifying group that is not listed was
    created no later than every listed one; and when at most 20 groups
    qualify, each of them is listed.  When the backend shows U her own
    membership rows and the groups she created, and no group has the
    empty id, the qualifying groups are the groups shown to U that U
    neither created nor belongs to.  Under the SELECT policy that the SQL
    files put on groups, with U's own membership rows visible to her, no
    group that is stored as private and has an id qualifies: the policy
    shows it to its members only, and those are excluded. *)
Theorem fetchPublicGroups_first_twenty (be : Backend) (db : Db) (U : Uuid) :
  let result := fetchPublicGroups be db (Some U) in
  List.length result
  = Nat.min 20 (List.length (filter (qualifies be db U) (groups db)))
  /\ (forall pg, In pg result ->
        pg_member_count pg = 0 /\ g_visibility (pg_group pg) = Public
        /\ exists g, In g (groups db) /\ qualifies be db U g = true
                     /\ pg = mkPublicGroup (as_public g) 0)
  /\ (forall g pg, In g (groups db) -> qualifies be db U g = true ->
        ~ In (mkPublicGroup (as_public g) 0) result -> In pg result ->
        g_created_at g <= g_created_at (pg_group pg))
  /\ (List.length (filter (qualifies be db U) (groups db)) <= 20 ->
      forall g, In g (groups db) -> qualifies be db U g = true ->
        In (mkPublicGroup (as_public g) 0) result)
  /\ (forall g, qualifies be db U g = true <->
        groups_select be db U g = true
        /\ ~ (g_id g <> EmptyString
              /\ ((exists m, In m (group_members db) /\ gm_user_id m = U
                             /\ members_select be db U m = true
                             /\ gm_group_id m = g_id g)
                  \/ (exists g', In g' (groups db) /\ g_created_by g' = U
                                 /\ groups_select be db U g' = true
                                 /\ g_id g' = g_id g))))
  /\ ((forall m, In m (group_members db) -> gm_user_id m = U ->
                 members_select be db U m = true) ->
      (forall g, In g (groups db) -> g_created_by g = U ->
                 groups_select be db U g = true) ->
      (forall g, In g (groups db) -> g_id g <> EmptyString) ->
      forall g, In g (groups db) ->
        (qualifies be db U g = true <->
         groups_select be db U g = true
         /\ is_creator db (g_id g) U = false
         /\ is_member db (g_id g) U = false))
  /\ (groups_select be = Policy.view_groups_members_or_public ->
      (forall m, In m (group_members db) -> gm_user_id m = U ->
                 members_select be db U m = true) ->
      forall g, g_id g <> EmptyString -> qualifies be db U g = true ->
                g_visibility g = Public).
Proof.
  intros result. unfold result. rewrite fetchPublicGroups_unfold.
  split; [| split; [| split; [| split; [| split; [| split]]]]].
  - now rewrite length_map, length_firstn, length_notExcluded_qualifies.
  - intros pg Hpg. apply in_map_iff in Hpg. destruct Hpg as [g [<- Hg]].
    repeat split. exists g. apply In_firstn_In in Hg.
    apply In_notExcluded_qualifies in Hg. tauto.
  - intros g pg Hin Hq Hnot Hpg.
    apply in_map_iff in Hpg. destruct Hpg as [g' [<- Hg']]. simpl.
    assert (HF : In g (notExcluded be db U))
      by (apply In_notExcluded_qualifies; auto).
    rewrite <- (firstn_skipn 20 (notExcluded be db U)) in HF.
    apply in_app_or in HF. destruct HF as [HF | HF].
    + exfalso. apply Hnot.
      now apply (in_map (fun g => mkPublicGroup (as_public g) 0)).
    + apply (sorted_app latest_first (firstn 20 (notExcluded be db U))
                        (skipn 20 (notExcluded be db U))); auto.
      rewrite firstn_skipn. unfold notExcluded.
      apply sorted_filter, sorted_order_by_created_at_desc.
  - intros Hlen g Hin Hq.
    rewrite firstn_all2.
    + apply (in_map (fun g => mkPublicGroup (as_public g) 0)).
      apply In_notExcluded_qualifies. auto.
    + rewrite length_notExcluded_qualifies. exact Hlen.
  - intros g. now rewrite qualifies_true, In_userGroupIds.
  - intros Hown Hcre Hids g Hin.
    rewrite qualifies_true, In_userGroupIds.
    rewrite <- !not_true_iff_false, is_creator_true, is_member_true.
    split.
    + intros [Hsel Hex]. split; [exact Hsel |]. split.
      * intros [g' [Hin' [Hid Hc]]]. apply Hex.
        split; [now apply Hids |]. right. exists g'. auto.
      * intros [m [Hm [Hg Hu]]]. apply Hex.
        split; [now apply Hids |]. left. exists m. auto.
    + intros [Hsel [Hc Hm]]. split; [exact Hsel |].
      intros [_ [[m [Hi [Hu [_ Hg]]]] | [g' [Hi [Hu [_ Hg]]]]]].
      * apply Hm. now exists m.
      * apply Hc. now exists g'.
  - intros Hpol Hown g Hid Hq. apply qualifies_true in Hq.
    destruct Hq as [Hsel Hex]. rewrite Hpol in Hsel.
    apply view_groups_members_or_public_iff in Hsel.
    destruct Hsel as [Hp | Hm]; [exact Hp |].
    exfalso. apply Hex. apply In_userGroupIds. split; [exact Hid |].
    left. apply is_member_true in Hm. destruct Hm as [m [Hin [Hg Hu]]].
    exists m. auto.
Qed.

Lemma fetchPublicGroups_first_twenty_witness :
  List.length (fetchPublicGroups be_open db_campus (Some "bob")) = 2
  /\ g_visibility study_group = Private
  /\ In (mkPublicGroup (as_public study_group) 0)
        (fetchPublicGroups be_open db_campus (Some "bob"))
  /\ List.length (fetchPublicGroups be_open db_twenty_one (Some "alice")) = 20.
Proof.
  destruct (fetchPublicGroups_first_twenty be_open db_campus "bob")
    as [Hlen [_ [_ [Hall _]]]].
  destruct (fetchPublicGroups_first_twenty be_open db_twenty_one "alice")
    as [Hlen' _].
  split; [exact Hlen |]. split; [reflexivity |]. split; [| exact Hlen'].
  apply Hall.
  - simpl. lia.
  - simpl. auto.
  - reflexivity.
Defined.
(** * The rest of the membership code *)

(** ** add_group_member and add_group_member_bypass *)

Lemma db_eta (db : Db) : mkDb (groups db) (group_members db) = db.
Proof. now destruct db. Qed.

Lemma is_member_snoc (db : Db) (row : GroupMember) (G T : Uuid) :
  is_member (mkDb (groups db) (group_members db ++ [row])) G T
  = is_member db G T || is_pair G T row.
Proof.
  unfold is_member. simpl. rewrite existsb_app. simpl. now rewrite orb_false_r.
Qed.

Lemma has_role_snoc (db : Db) (row : GroupMember) (G T : Uuid) (p : Role -> bool) :
  has_role (mkDb (groups db) (group_members db ++ [row])) G T p
  = has_role db G T p || (is_pair G T row && p (gm_role row)).
Proof.
  unfold has_role. simpl. rewrite existsb_app. simpl. now rewrite orb_false_r.
Qed.

Lemma has_role_absent (db : Db) (G T : Uuid) (p : Role -> bool) :
  is_member db G T = false -> has_role db G T p = false.
Proof.
  intros Habs. apply not_true_iff_false. rewrite has_role_true.
  intros [m [Hin [Hg [Hu _]]]]. rewrite is_member_false in Habs.
  now apply (Habs m Hin).
Qed.

(** X1.  add_group_member answers success exactly when a user is signed
    in, is authorized for the group and the target has no row in it; then
    it appends the one row (G, T, role) and nothing else.  In every other
    case it writes nothing.  It never changes the groups or an existing
    membership row. *)
Theorem add_group_member_outcome
    (db : Db) (auth_uid : option Uuid) (G T : Uuid) (role : Role)
    (new_id : Uuid) (now : Time) :
  let r := add_group_member db auth_uid G T role new_id now in
  let accepted :=
    match auth_uid with
    | Some U => is_authorized db U G && negb (is_member db G T)
    | None => false
    end in
  (if accepted
   then r = (mkDb (groups db)
                  (group_members db ++ [mkGroupMember new_id G T role now]),
             JsonSuccess "Member added successfully")
   else fst r = db /\ exists error, snd r = JsonError error)
  /\ groups (fst r) = groups db
  /\ forall m, In m (group_members db) -> In m (group_members (fst r)).
Proof.
  intros r accepted. unfold r, accepted, add_group_member, raw_insert_member.
  destruct auth_uid as [U |]; simpl.
  - destruct (is_authorized db U G); simpl.
    + destruct (is_member db G T); simpl.
      * repeat split; eauto.
      * repeat split. intros m Hin. apply in_or_app. now left.
    + repeat split; eauto.
  - repeat split; eauto.
Qed.

(** X2.  After add_group_member has answered success for target T, T has
    a row in G, and T is authorized for G exactly when the role given is
    admin or moderator or T is the creator of G. *)
Theorem add_group_member_grants
    (db db' : Db) (U G T : Uuid) (role : Role) (new_id : Uuid) (now : Time)
    (message : string)
    (Hok : add_group_member db (Some U) G T role new_id now = (db', JsonSuccess message)) :
  is_member db' G T = true
  /\ is_authorized db' T G = (is_creator db G T || admin_or_moderator role).
Proof.
  unfold add_group_member, raw_insert_member in Hok. simpl in Hok.
  destruct (is_authorized db U G); simpl in Hok; [| discriminate].
  destruct (is_member db G T) eqn:Habs; [discriminate |].
  inversion Hok; subst; clear Hok. split.
  - rewrite is_member_snoc. unfold is_pair. simpl.
    rewrite !String.eqb_refl. apply orb_true_r.
  - rewrite is_authorized_orb, has_role_snoc.
    rewrite (has_role_absent db G T _ Habs). unfold is_pair, is_creator. simpl.
    now rewrite !String.eqb_refl.
Qed.

Lemma add_group_member_grants_witness :
  is_member (mkDb [study_group]
                  [mkGroupMember "m1" "g1" "alice" Admin 10;
                   mkGroupMember "m2" "g1" "bob" Member 11;
                   mkGroupMember "m3" "g1" "carol" Moderator 12]) "g1" "carol" = true
  /\ is_authorized (mkDb [study_group]
                         [mkGroupMember "m1" "g1" "alice" Admin 10;
                          mkGroupMember "m2" "g1" "bob" Member 11;
                          mkGroupMember "m3" "g1" "carol" Moderator 12]) "carol" "g1"
     = (is_creator db_alice_bob "g1" "carol" || admin_or_moderator Moderator).
Proof.
  apply (add_group_member_grants db_alice_bob _ "alice" "g1" "carol" Moderator "m3" 12
           "Member added successfully").
  reflexivity.
Defined.

(** X3.  add_group_member_bypass has no authorization case: for any
    signed-in caller S and any group G in which S has no row it appends
    the row (G, S, admin), after which add_group_member counts S as
    authorized for G, whoever created G and whatever its visibility. *)
Theorem add_group_member_bypass_escalates
    (db : Db) (S G : Uuid) (new_id : Uuid) (now : Time)
    (Habsent : is_member db G S = false) :
  let db' := mkDb (groups db) (group_members db ++ [mkGroupMember new_id G S Admin now]) in
  add_group_member_bypass db (Some S) G S Admin new_id now
  = (db', BypassSuccess "Member added successfully" G S Admin)
  /\ is_authorized db' S G = true.
Proof.
  intros db'. split.
  - unfold add_group_member_bypass, raw_insert_member. simpl. now rewrite Habsent.
  - rewrite is_authorized_orb. unfold db'. rewrite has_role_snoc.
    unfold is_pair. simpl. rewrite !String.eqb_refl. simpl.
    now rewrite !orb_true_r.
Qed.

Lemma add_group_member_bypass_escalates_witness :
  add_group_member_bypass db_alice_bob (Some "mallory") "g1" "mallory" Admin "m9" 30
  = (mkDb [study_group]
          [mkGroupMember "m1" "g1" "alice" Admin 10;
           mkGroupMember "m2" "g1" "bob" Member 11;
           mkGroupMember "m9" "g1" "mallory" Admin 30],
     BypassSuccess "Member added successfully" "g1" "mallory" Admin)
  /\ is_authorized (mkDb [study_group]
                         [mkGroupMember "m1" "g1" "alice" Admin 10;
                          mkGroupMember "m2" "g1" "bob" Member 11;
                          mkGroupMember "m9" "g1" "mallory" Admin 30]) "mallory" "g1"
     = true.
Proof.
  apply (add_group_member_bypass_escalates db_alice_bob "mallory" "g1" "m9" 30).
  reflexivity.
Defined.

(** ** The policies of group_members *)

(** X4.  The INSERT policy of migration 20250925000001 admits a row
    exactly when the policy of migration 20250920000002 admits it, or the
    non-recursive policy of fix_member_policy_simple.sql does, or the
    caller has an admin or moderator row in the group; its first case (own
    row, public group) adds nothing to its second (own row). *)
Theorem join_or_added_by_admins_covers (db : Db) (uid : Uuid) (m : GroupMember) :
  Policy.join_or_added_by_admins db uid m
  = Policy.users_can_join_groups db uid m
    || Policy.non_recursive_member_insertion db uid m
    || has_role db (gm_group_id m) uid admin_or_moderator.
Proof.
  unfold Policy.join_or_added_by_admins, Policy.users_can_join_groups,
    Policy.non_recursive_member_insertion.
  rewrite (String.eqb_sym (gm_user_id m) uid).
  destruct (uid =? gm_user_id m), (is_group_public db (gm_group_id m)),
    (has_role db (gm_group_id m) uid admin_or_moderator),
    (is_creator db (gm_group_id m) uid); reflexivity.
Qed.

(** X6.  "Simple group member insertion": a caller with an admin row in
    any group G0 may insert any row, for any user and any group. *)
Theorem simple_group_member_insertion_any_admin
    (db : Db) (U G0 : Uuid) (m : GroupMember)
    (Hadmin : has_role db G0 U (Role_eqb Admin) = true) :
  InsertPolicy.simple_group_member_insertion db U m = true.
Proof.
  unfold InsertPolicy.simple_group_member_insertion.
  apply orb_true_iff. right. apply existsb_exists.
  apply has_role_true in Hadmin. destruct Hadmin as [a [Hin [_ [Hu Hr]]]].
  exists a. split; [exact Hin |].
  rewrite String.eqb_refl, Hu, String.eqb_refl.
  now destruct (gm_role a).
Qed.

Lemma simple_group_member_insertion_any_admin_witness :
  InsertPolicy.simple_group_member_insertion
    db_chess "alice" (mkGroupMember "m7" "g1" "dave" Admin 40) = true.
Proof.
  apply (simple_group_member_insertion_any_admin db_chess "alice" "g2").
  reflexivity.
Defined.

(** ** Joining, leaving and adding through the hook *)

Lemma insert_member_accepted (be : Backend) (db : Db) (me : Uuid) (row : GroupMember) :
  members_insert be db me row = true ->
  is_member db (gm_group_id row) (gm_user_id row) = false ->
  insert_member be db me row = inl (mkDb (groups db) (group_members db ++ [row])).
Proof.
  intros Hacc Habs. unfold insert_member, raw_insert_member. now rewrite Hacc, Habs.
Qed.

(** X7.  Leaving undoes joining: when U has no row in G, the INSERT
    policy admits U's row, and the SELECT policy shows U the row and the
    DELETE policy lets U delete it, joinGroup followed by leaveGroup gives
    back the tables as they were. *)
Theorem joinGroup_leaveGroup
    (be : Backend) (db : Db) (U G : Uuid) (new_mid : Uuid) (now : Time)
    (Habsent : is_member db G U = false)
    (Hins : members_insert be db U (mkGroupMember new_mid G U Member now) = true)
    (Hsel : members_select be
              (mkDb (groups db)
                    (group_members db ++ [mkGroupMember new_mid G U Member now]))
              U (mkGroupMember new_mid G U Member now) = true)
    (Hdel : members_delete be
              (mkDb (groups db)
                    (group_members db ++ [mkGroupMember new_mid G U Member now]))
              U (mkGroupMember new_mid G U Member now) = true) :
  let db1 := mkDb (groups db)
                  (group_members db ++ [mkGroupMember new_mid G U Member now]) in
  joinGroup be db (Some U) G new_mid now = (db1, Returned tt)
  /\ leaveGroup be db1 (Some U) G = (db, Returned tt).
Proof.
  intros db1. split.
  - unfold joinGroup. now rewrite (insert_member_accepted be db U _ Hins Habsent).
  - unfold leaveGroup, delete_member. f_equal.
    change (groups db1) with (groups db).
    change (group_members db1)
      with ((group_members db ++ [mkGroupMember new_mid G U Member now])%list).
    rewrite filter_app.
    assert (Hlast : filter (fun m => negb (is_pair G U m && members_select be db1 U m
                                          && members_delete be db1 U m))
                           [mkGroupMember new_mid G U Member now] = []).
    { simpl. unfold db1. rewrite Hsel, Hdel. unfold is_pair. simpl.
      now rewrite !String.eqb_refl. }
    rewrite Hlast, app_nil_r, filter_all; [apply db_eta |].
    intros m Hin. destruct (is_pair G U m) eqn:Hp; [| reflexivity].
    exfalso. rewrite is_member_false in Habsent.
    apply (Habsent m Hin). now apply is_pair_true.
Qed.

Lemma joinGroup_leaveGroup_witness :
  joinGroup be_migration db_chess (Some "bob") "g2" "m2" 21
  = (mkDb [chess] [mkGroupMember "m1" "g2" "alice" Admin 20;
                   mkGroupMember "m2" "g2" "bob" Member 21],
     Returned tt)
  /\ leaveGroup be_migration
                (mkDb [chess] [mkGroupMember "m1" "g2" "alice" Admin 20;
                               mkGroupMember "m2" "g2" "bob" Member 21])
                (Some "bob") "g2"
     = (db_chess, Returned tt).
Proof.
  apply (joinGroup_leaveGroup be_migration db_chess "bob" "g2" "m2" 21);
    reflexivity.
Defined.

(** X8.  Where the INSERT policy admits a caller's own rows (as the
    policies of migration 20250925000001 and of fix_member_policy_simple.sql
    do) and the SELECT policy shows them to her, so that the insert may
    hand the new row back, a signed-in user with no row in a group G,
    private or not, can add herself to G as admin through addMember;
    afterwards
    add_group_member counts her as authorized for G and the SELECT policy
    of groups shows her every group with that id. *)
Theorem addMember_self_as_admin
    (be : Backend) (db : Db) (U G : Uuid) (new_mid : Uuid) (now : Time)
    (Hown : forall db0 m, gm_user_id m = U -> members_insert be db0 U m = true)
    (Hsee : forall db0 m, gm_user_id m = U -> members_select be db0 U m = true)
    (Habsent : is_member db G U = false) :
  let db' := mkDb (groups db) (group_members db ++ [mkGroupMember new_mid G U Admin now]) in
  addMember be db (Some U) G U Admin new_mid now = (db', Returned None)
  /\ is_authorized db' U G = true
  /\ forall g, g_id g = G -> Policy.view_groups_members_or_public db' U g = true.
Proof.
  intros db'. repeat split.
  - rewrite (addMember_absent be db U G U Admin new_mid now Habsent).
    now rewrite Hown, Hsee.
  - rewrite is_authorized_orb. unfold db'. rewrite has_role_snoc.
    unfold is_pair. simpl. rewrite !String.eqb_refl. simpl.
    now rewrite !orb_true_r.
  - intros g Hg. apply view_groups_members_or_public_iff. right.
    rewrite Hg. unfold db'. rewrite is_member_snoc. unfold is_pair. simpl.
    rewrite !String.eqb_refl. apply orb_true_r.
Qed.

Lemma addMember_self_as_admin_witness :
  addMember be_added_by_admins db_alice_bob (Some "mallory") "g1" "mallory" Admin "m9" 30
  = (mkDb [study_group]
          [mkGroupMember "m1" "g1" "alice" Admin 10;
           mkGroupMember "m2" "g1" "bob" Member 11;
           mkGroupMember "m9" "g1" "mallory" Admin 30],
     Returned None)
  /\ is_authorized (mkDb [study_group]
                         [mkGroupMember "m1" "g1" "alice" Admin 10;
                          mkGroupMember "m2" "g1" "bob" Member 11;
                          mkGroupMember "m9" "g1" "mallory" Admin 30]) "mallory" "g1"
     = true
  /\ forall g, g_id g = "g1" ->
       Policy.view_groups_members_or_public
         (mkDb [study_group]
               [mkGroupMember "m1" "g1" "alice" Admin 10;
                mkGroupMember "m2" "g1" "bob" Member 11;
                mkGroupMember "m9" "g1" "mallory" Admin 30]) "mallory" g = true.
Proof.
  apply (addMember_self_as_admin be_added_by_admins db_alice_bob "mallory" "g1" "m9" 30).
  - intros db0 m Hu. unfold be_added_by_admins. cbn [members_insert].
    rewrite Hu, String.eqb_refl. now rewrite orb_true_r.
  - intros db0 m Hu. unfold be_added_by_admins. cbn [members_select].
    unfold Policy.view_members_of_own_groups.
    rewrite Hu, String.eqb_refl. now rewrite orb_true_r.
  - reflexivity.
Defined.

(** X9.  Under the INSERT policy of migration 20250920000002 ("Users
    can join groups") joinGroup is refused for a group that is not public
    unless the caller already has an admin or moderator row in it: it
    throws the policy violation and writes nothing. *)
Theorem joinGroup_private_refused
    (be : Backend) (db : Db) (U G : Uuid) (new_mid : Uuid) (now : Time)
    (Hpol : members_insert be = Policy.users_can_join_groups)
    (Hprivate : is_group_public db G = false)
    (Hrole : has_role db G U admin_or_moderator = false) :
  joinGroup be db (Some U) G new_mid now = (db, Thrown RlsViolation)
  /\ failure_of RlsViolation = Unauthorized.
Proof.
  split; [| reflexivity].
  unfold joinGroup, insert_member. rewrite Hpol.
  unfold Policy.users_can_join_groups. simpl.
  now rewrite Hprivate, Hrole, andb_false_r.
Qed.

Lemma joinGroup_private_refused_witness :
  joinGroup be_migration db_alice_bob (Some "carol") "g1" "m3" 12
  = (db_alice_bob, Thrown RlsViolation)
  /\ failure_of RlsViolation = Unauthorized.
Proof.
  apply (joinGroup_private_refused be_migration db_alice_bob "carol" "g1" "m3" 12);
    reflexivity.
Defined.

Lemma single_In {A : Type} (l : list A) (x : A) : single l = Some x -> In x l.
Proof.
  destruct l as [| a [| b l]]; simpl; intros H; inversion H. now left.
Qed.

Lemma is_pair_overwrite (row m : GroupMember) (G T : Uuid) :
  is_pair G T (overwrite row m) = is_pair G T m.
Proof.
  pose proof (pair_of_overwrite row m) as H. unfold pair_of in H.
  unfold is_pair. inversion H as [[Hg Hu]]. now rewrite Hg, Hu.
Qed.

Lemma is_member_overwrite (db : Db) (row : GroupMember) (G T : Uuid) :
  is_member (mkDb (groups db) (map (overwrite row) (group_members db))) G T
  = is_member db G T.
Proof.
  unfold is_member. simpl. induction (group_members db) as [| m ms IH]; simpl.
  - reflexivity.
  - now rewrite is_pair_overwrite, IH.
Qed.

Lemma In_overwrite_other (row m : GroupMember) (ms : list GroupMember) :
  is_pair (gm_group_id row) (gm_user_id row) m = false ->
  (In m (map (overwrite row) ms) <-> In m ms).
Proof.
  intros Hm. rewrite in_map_iff. split.
  - intros [x [Hx Hin]].
    destruct (is_pair (gm_group_id row) (gm_user_id row) x) eqn:Hp.
    + rewrite <- Hx, is_pair_overwrite, Hp in Hm. discriminate.
    + unfold overwrite in Hx. rewrite Hp in Hx. now subst.
  - intros Hin. exists m. split; [| exact Hin].
    unfold overwrite. now rewrite Hm.
Qed.

(** The four ways in which addMember ends. *)
Lemma addMember_cases (be : Backend) (db : Db) (user : option Uuid) (G T : Uuid)
    (role : Role) (new_mid : Uuid) (now : Time) :
  let row := mkGroupMember new_mid G T role now in
  let r := addMember be db user G T role new_mid now in
  (fst r = db /\ exists e, snd r = Thrown e)
  \/ (fst r = db /\ snd r = Returned None /\ is_member db G T = true)
  \/ (fst r = mkDb (groups db) (group_members db ++ [row]) /\ snd r = Returned None)
  \/ (fst r = mkDb (groups db) (map (overwrite row) (group_members db))
      /\ (exists data, snd r = Returned (Some data)) /\ is_member db G T = true).
Proof.
  intros row r. unfold r, addMember.
  destruct user as [me |]; [| left; simpl; eauto].
  destruct (single (select_members be db me (is_pair G T))) as [m |] eqn:Hs.
  - right. left. repeat split. apply single_In in Hs.
    unfold select_members in Hs. apply filter_In in Hs.
    destruct Hs as [Hin Hp]. apply andb_true_iff in Hp.
    apply is_member_true. exists m. split; [exact Hin |].
    now apply is_pair_true.
  - unfold addMember_after_check. fold row.
    destruct (insert_member_returning be db me row) as [db1 | e] eqn:Hi.
    + right. right. left. simpl. split; [| reflexivity].
      unfold insert_member_returning, raw_insert_member in Hi.
      destruct (members_insert be db me row && members_select be db me row);
        [| discriminate].
      destruct (is_member db (gm_group_id row) (gm_user_id row)); [discriminate |].
      now inversion Hi.
    + unfold addMemberAlternative, upsert_member. fold row.
      simpl gm_group_id. simpl gm_user_id.
      destruct (is_member db G T) eqn:Hmem.
      * destruct (forallb _ (group_members db)).
        -- right. right. right. simpl. repeat split; eauto.
        -- left. simpl. split; eauto.
      * rewrite Hi. left. simpl. split; eauto.
Qed.

(** X10.  What addMember leaves alone and what it ensures: the groups
    are as before; a membership row of another pair than (G, T) is in the
    table after the call exactly when it was before; no pair loses its
    membership; a call that throws has written nothing; and a call that
    returns leaves T with a row in G. *)
Theorem addMember_frame (be : Backend) (db : Db) (user : option Uuid) (G T : Uuid)
    (role : Role) (new_mid : Uuid) (now : Time) :
  let r := addMember be db user G T role new_mid now in
  groups (fst r) = groups db
  /\ (forall m, is_pair G T m = false ->
                (In m (group_members (fst r)) <-> In m (group_members db)))
  /\ (forall G' T', is_member db G' T' = true -> is_member (fst r) G' T' = true)
  /\ (forall e, snd r = Thrown e -> fst r = db)
  /\ (forall data, snd r = Returned data -> is_member (fst r) G T = true).
Proof.
  intros r.
  destruct (addMember_cases be db user G T role new_mid now)
    as [[Hdb [e He]] | [[Hdb [Hr Hmem]] | [[Hdb Hr] | [Hdb [[data Hr] Hmem]]]]];
    fold r in Hdb; rewrite Hdb; (split; [| split; [| split; [| split]]]);
    try reflexivity; try tauto.
  - intros data Hd. subst r. rewrite He in Hd. discriminate.
  - intros m Hm. simpl. rewrite in_app_iff. simpl. split.
    + intros [Hin | [<- | []]]; [exact Hin |].
      unfold is_pair in Hm. simpl in Hm. rewrite !String.eqb_refl in Hm. discriminate.
    + intros Hin. now left.
  - intros G' T' Hm. rewrite is_member_snoc, Hm. reflexivity.
  - intros e He. subst r. rewrite Hr in He. discriminate.
  - intros ? _. rewrite is_member_snoc. unfold is_pair. simpl.
    rewrite !String.eqb_refl. apply orb_true_r.
  - intros m Hm. simpl.
    now apply (In_overwrite_other (mkGroupMember new_mid G T role now)).
  - intros G' T' Hm. now rewrite is_member_overwrite.
  - intros e He. subst r. rewrite Hr in He. discriminate.
  - intros ? _. now rewrite is_member_overwrite.
Qed.

(** ** The sidebar: adding the selected users *)






Lemma NoDup_filter_ids (keep : Uuid -> bool) (ids : list Uuid) :
  NoDup ids -> NoDup (filter keep ids).
Proof.
  induction 1 as [| x l Hx Hnd IH]; simpl; [constructor |].
  destruct (keep x); [| exact IH].
  constructor; [| exact IH]. intros Hin. apply filter_In in Hin. tauto.
Qed.

(** X12.  toggleUserSelection flips whether the user is selected and
    leaves every other user as selected as before; a selection without
    duplicates stays without duplicates; and selecting a user who was not
    selected and toggling again gives back the selection. *)
Theorem toggleUserSelection_flips (prev : list Uuid) (userId : Uuid) :
  (In userId (toggleUserSelection prev userId) <-> ~ In userId prev)
  /\ (forall x, x <> userId ->
                (In x (toggleUserSelection prev userId) <-> In x prev))
  /\ (NoDup prev -> NoDup (toggleUserSelection prev userId))
  /\ (~ In userId prev ->
      toggleUserSelection (toggleUserSelection prev userId) userId = prev).
Proof.
  unfold toggleUserSelection at 1 2 3.
  destruct (includes prev userId) eqn:Hinc.
  - apply includes_true in Hinc.
    split; [| split; [| split]].
    + rewrite filter_In, negb_true_iff, String.eqb_neq. tauto.
    + intros x Hx. rewrite filter_In, negb_true_iff, String.eqb_neq. tauto.
    + apply NoDup_filter_ids.
    + tauto.
  - assert (Hnot : ~ In userId prev).
    { rewrite <- includes_true, Hinc. discriminate. }
    split; [| split; [| split]].
    + rewrite in_app_iff. simpl. tauto.
    + intros x Hx. rewrite in_app_iff. simpl. intuition congruence.
    + intros Hnd. now apply NoDup_snoc.
    + intros _. unfold toggleUserSelection.
      assert (Hinc' : includes (prev ++ [userId]) userId = true).
      { apply includes_true. apply in_or_app. right. now left. }
      rewrite Hinc, Hinc', filter_app. simpl.
      rewrite String.eqb_refl. simpl. rewrite app_nil_r.
      apply filter_all. intros x Hx.
      rewrite negb_true_iff, String.eqb_neq. congruence.
Qed.

(** ** After createGroup *)

Lemma add_group_member_groups (db : Db) (auth_uid : option Uuid) (G T : Uuid)
    (role : Role) (new_id : Uuid) (now : Time) :
  groups (fst (add_group_member db auth_uid G T role new_id now)) = groups db.
Proof.
  unfold add_group_member, raw_insert_member.
  destruct auth_uid as [U |]; [| reflexivity].
  destruct (negb (is_authorized db U G)); [reflexivity |]. simpl.
  destruct (is_member db G T); reflexivity.
Qed.

Lemma insert_member_groups (be : Backend) (db db' : Db) (me : Uuid) (row : GroupMember) :
  insert_member be db me row = inl db' -> groups db' = groups db.
Proof.
  unfold insert_member, raw_insert_member.
  destruct (members_insert be db me row); [| discriminate].
  destruct (is_member db _ _); [discriminate |].
  intros H. now inversion H.
Qed.

Lemma createGroup_accepted (be : Backend) (db : Db) (me : Uuid) (groupData : GroupData)
    (new_gid new_mid : Uuid) (now : Time) :
  let group := mkGroup new_gid (gd_name groupData) (gd_description groupData)
                       (gd_profile_pic_url groupData) (gd_visibility groupData)
                       me now now in
  groups_insert be db me group = true ->
  groups_select be db me group = true ->
  snd (createGroup be db (Some me) groupData new_gid new_mid now) = Returned group
  /\ groups (fst (createGroup be db (Some me) groupData new_gid new_mid now))
     = (groups db ++ [group])%list.
Proof.
  intros group Hacc Hsee. unfold createGroup, insert_group. fold group.
  rewrite Hacc, Hsee. simpl andb. cbv iota.
  set (db1 := mkDb (groups db ++ [group]) (group_members db)).
  unfold rpc. destruct (rpc_add_group_member be).
  - pose proof (add_group_member_groups db1 (Some me) (g_id group) me Admin new_mid now)
      as Hg.
    destruct (add_group_member db1 (Some me) (g_id group) me Admin new_mid now)
      as [db2 j]. simpl in *. now split.
  - destruct (insert_member be db1 me _) as [db2 | e] eqn:Hi; simpl.
    + split; [reflexivity |]. now apply (insert_member_groups be db1 db2 me _ Hi).
    + now split.
Qed.

(** X13.  When the insert of the group is accepted, that is the INSERT
    policy of groups admits the new row and the SELECT policy shows it to
    its creator, createGroup returns
    the group (owner as creator, the requested visibility), the group is
    the last row of the table, and the owner is authorized for it in
    add_group_member whether or not her membership row was written: any
    user without a row in the new group can then be added by her through
    the helper. *)
Theorem createGroup_owner_authorized
    (be : Backend) (db : Db) (me : Uuid) (groupData : GroupData)
    (new_gid new_mid : Uuid) (now : Time)
    (Hacc : groups_insert be db me
              (mkGroup new_gid (gd_name groupData) (gd_description groupData)
                       (gd_profile_pic_url groupData) (gd_visibility groupData)
                       me now now) = true)
    (Hsee : groups_select be db me
              (mkGroup new_gid (gd_name groupData) (gd_description groupData)
                       (gd_profile_pic_url groupData) (gd_visibility groupData)
                       me now now) = true) :
  let group := mkGroup new_gid (gd_name groupData) (gd_description groupData)
                       (gd_profile_pic_url groupData) (gd_visibility groupData)
                       me now now in
  let r := createGroup be db (Some me) groupData new_gid new_mid now in
  snd r = Returned group
  /\ groups (fst r) = (groups db ++ [group])%list
  /\ is_authorized (fst r) me new_gid = true
  /\ forall T role nid t,
       is_member (fst r) new_gid T = false ->
       snd (add_group_member (fst r) (Some me) new_gid T role nid t)
       = JsonSuccess "Member added successfully".
Proof.
  intros group r.
  destruct (createGroup_accepted be db me groupData new_gid new_mid now Hacc Hsee)
    as [Hret Hgroups].
  fold group in Hret, Hgroups. fold r in Hret, Hgroups.
  assert (Hauth : is_authorized (fst r) me new_gid = true).
  { rewrite is_authorized_orb. apply orb_true_iff. left.
    apply is_creator_true. exists group. rewrite Hgroups.
    split; [apply in_or_app; right; now left | now split]. }
  repeat split; auto.
  intros T role nid t Habs. unfold add_group_member, raw_insert_member. simpl.
  now rewrite Hauth, Habs.
Qed.

Lemma createGroup_owner_authorized_witness :
  snd (createGroup be_migration empty_db (Some "alice") chess_club "g2" "m1" 20)
  = Returned chess
  /\ groups (fst (createGroup be_migration empty_db (Some "alice") chess_club "g2" "m1" 20))
     = [chess]
  /\ is_authorized
       (fst (createGroup be_migration empty_db (Some "alice") chess_club "g2" "m1" 20))
       "alice" "g2" = true
  /\ forall T role nid t,
       is_member
         (fst (createGroup be_migration empty_db (Some "alice") chess_club "g2" "m1" 20))
         "g2" T = false ->
       snd (add_group_member
              (fst (createGroup be_migration empty_db (Some "alice") chess_club "g2" "m1" 20))
              (Some "alice") "g2" T role nid t)
       = JsonSuccess "Member added successfully".
Proof.
  apply (createGroup_owner_authorized be_migration empty_db "alice" chess_club "g2" "m1" 20);
    reflexivity.
Defined.

(** ** getUserRoleInGroup *)

(** X14.  A role that getUserRoleInGroup returns is backed by the
    tables: either it is admin and the user created a group with that id,
    or the user has a membership row in the group with that role.  Without
    a signed-in user it returns null. *)
Theorem getUserRoleInGroup_sound (be : Backend) (db : Db) (user : option Uuid)
    (G : Uuid) :
  getUserRoleInGroup be db None G = None
  /\ forall role, getUserRoleInGroup be db user G = Some role ->
       exists U, user = Some U
         /\ ((role = Admin /\ creator_of db G U)
             \/ exists m, In m (group_members db) /\ gm_group_id m = G
                          /\ gm_user_id m = U /\ gm_role m = role).
Proof.
  split; [reflexivity |]. intros role H.
  destruct user as [U |]; [| discriminate]. exists U. split; [reflexivity |].
  unfold getUserRoleInGroup in H.
  assert (Hrow : match single (select_members be db U (is_pair G U)) with
                 | Some data => Some (gm_role data)
                 | None => None
                 end = Some role ->
                 exists m, In m (group_members db) /\ gm_group_id m = G
                           /\ gm_user_id m = U /\ gm_role m = role).
  { destruct (single (select_members be db U (is_pair G U))) as [m |] eqn:Hs;
      [| discriminate].
    intros Hr. inversion Hr; subst. exists m.
    apply single_In in Hs. unfold select_members in Hs. apply filter_In in Hs.
    destruct Hs as [Hin Hp]. apply andb_true_iff in Hp. destruct Hp as [Hp _].
    apply is_pair_true in Hp. tauto. }
  destruct (single (select_groups be db U (fun g => g_id g =? G))) as [g |] eqn:Hg.
  - destruct (g_created_by g =? U) eqn:Hc.
    + left. inversion H; subst. split; [reflexivity |].
      apply single_In in Hg. unfold select_groups in Hg. apply filter_In in Hg.
      destruct Hg as [Hin Hp]. apply andb_true_iff in Hp. destruct Hp as [Hp _].
      exists g. rewrite String.eqb_eq in Hp, Hc. tauto.
    + right. now apply Hrow.
  - right. now apply Hrow.
Qed.

(** X15.  For a user who created no group with that id, whose rows in the
    group are visible to her, and with at most one row per pair,
    getUserRoleInGroup is the lookup of her row: the role of the row, or
    null when she has none. *)
Theorem getUserRoleInGroup_lookup (be : Backend) (db : Db) (U G : Uuid)
    (Hnc : is_creator db G U = false)
    (Huniq : unique_pairs db)
    (Hvis : forall m, In m (group_members db) -> is_pair G U m = true ->
                      members_select be db U m = true) :
  getUserRoleInGroup be db (Some U) G
  = match find (is_pair G U) (group_members db) with
    | Some m => Some (gm_role m)
    | None => None
    end.
Proof.
  unfold getUserRoleInGroup.
  assert (Hsel : select_members be db U (is_pair G U)
                 = filter (is_pair G U) (group_members db)).
  { unfold select_members. apply filter_ext_in. intros m Hin.
    destruct (is_pair G U m) eqn:Hp; [| reflexivity]. now rewrite (Hvis m Hin Hp). }
  rewrite Hsel.
  assert (Hrow : match single (filter (is_pair G U) (group_members db)) with
                 | Some data => Some (gm_role data)
                 | None => None
                 end
                 = match find (is_pair G U) (group_members db) with
                   | Some m => Some (gm_role m)
                   | None => None
                   end).
  { destruct (find (is_pair G U) (group_members db)) as [m |] eqn:Hf.
    - apply find_some in Hf. destruct Hf as [Hin Hp].
      now rewrite (filter_pair_unique G U m _ Huniq Hin Hp).
    - rewrite filter_none; [reflexivity |].
      intros m Hin. now apply (find_none _ _ Hf). }
  destruct (single (select_groups be db U (fun g => g_id g =? G))) as [g |] eqn:Hg;
    [| exact Hrow].
  destruct (g_created_by g =? U) eqn:Hc; [| exact Hrow].
  exfalso. apply not_true_iff_false in Hnc. apply Hnc.
  apply single_In in Hg. unfold select_groups in Hg. apply filter_In in Hg.
  destruct Hg as [Hin Hp]. apply andb_true_iff in Hp. destruct Hp as [Hp _].
  apply is_creator_true. exists g. rewrite String.eqb_eq in Hp, Hc. tauto.
Qed.

Lemma getUserRoleInGroup_lookup_witness :
  getUserRoleInGroup be_migration db_alice_bob (Some "bob") "g1"
  = match find (is_pair "g1" "bob") (group_members db_alice_bob) with
    | Some m => Some (gm_role m)
    | None => None
    end.
Proof.
  apply (getUserRoleInGroup_lookup be_migration db_alice_bob "bob" "g1").
  - reflexivity.
  - unfold unique_pairs. simpl. repeat constructor; simpl; intuition discriminate.
  - intros m Hin Hp. simpl in Hin.
    destruct Hin as [<- | [<- | []]]; [discriminate | reflexivity].
Defined.

(** ** fetchUserGroups and isGroupMember *)

Lemma In_insert_by_updated_at (x g : Group) (l : list Group) :
  In x (insert_by_updated_at g l) <-> x = g \/ In x l.
Proof.
  induction l as [| h t IH]; simpl.
  - intuition.
  - destruct (Nat.ltb (g_updated_at h) (g_updated_at g)); simpl.
    + intuition.
    + rewrite IH. intuition.
Qed.

Lemma In_order_by_updated_at_desc (x : Group) (l : list Group) :
  In x (order_by_updated_at_desc l) <-> In x l.
Proof.
  induction l as [| h t IH]; simpl; [tauto |].
  rewrite In_insert_by_updated_at, IH. intuition.
Qed.

Lemma In_groupIds (be : Backend) (db : Db) (U x : Uuid) :
  In x (groupIds be db U) <->
  x <> EmptyString
  /\ exists m, In m (group_members db) /\ gm_user_id m = U
               /\ members_select be db U m = true /\ gm_group_id m = x.
Proof.
  unfold groupIds, select_members.
  rewrite filter_In, in_map_iff, truthy_true. split.
  - intros [[m [Hm Hin]] Hx]. split; [exact Hx |]. exists m.
    apply filter_In in Hin. rewrite andb_true_iff, String.eqb_eq in Hin. tauto.
  - intros [Hx [m [Hin [Hu [Hs Hm]]]]]. split; [| exact Hx].
    exists m. split; [exact Hm |]. apply filter_In.
    rewrite andb_true_iff, String.eqb_eq. tauto.
Qed.

(** fetchUserGroups without its tests for empty lists, which change
    nothing. *)
Lemma fetchUserGroups_normal_form (be : Backend) (db : Db) (U : Uuid) :
  let member_groups :=
    order_by_updated_at_desc
      (select_groups be db U (fun g => includes (groupIds be db U) (g_id g))) in
  let createdGroups :=
    order_by_updated_at_desc (select_groups be db U (fun g => g_created_by g =? U)) in
  fetchUserGroups be db (Some U)
  = map processed
        (member_groups
         ++ filter (fun g => negb (includes (map g_id member_groups) (g_id g)))
                   createdGroups).
Proof.
  intros member_groups createdGroups. unfold fetchUserGroups.
  fold createdGroups.
  assert (Hstage :
    match select_members be db U (fun m => gm_user_id m =? U) with
    | [] => []
    | _ :: _ =>
        match filter truthy
                (map gm_group_id (select_members be db U (fun m => gm_user_id m =? U))) with
        | [] => []
        | _ :: _ =>
            order_by_updated_at_desc
              (select_groups be db U
                 (fun g => includes
                             (filter truthy
                                (map gm_group_id
                                   (select_members be db U (fun m => gm_user_id m =? U))))
                             (g_id g)))
        end
    end = member_groups).
  { unfold member_groups, groupIds.
    destruct (select_members be db U (fun m => gm_user_id m =? U)) as [| m ms] eqn:HM.
    - simpl. unfold select_groups. rewrite filter_none; [reflexivity |].
      intros g _. reflexivity.
    - destruct (filter truthy (map gm_group_id (m :: ms))) as [| i others] eqn:HI.
      + unfold select_groups. rewrite filter_none; [reflexivity |].
        intros g _. reflexivity.
      + reflexivity. }
  rewrite Hstage.
  assert (Hmerge :
    match createdGroups with
    | [] => member_groups
    | _ :: _ =>
        (member_groups
         ++ filter (fun g => negb (includes (map g_id member_groups) (g_id g)))
                   createdGroups)%list
    end
    = (member_groups
       ++ filter (fun g => negb (includes (map g_id member_groups) (g_id g)))
                 createdGroups)%list).
  { destruct createdGroups; [now rewrite app_nil_r | reflexivity]. }
  rewrite Hmerge.
  now destruct (member_groups
                ++ filter (fun g => negb (includes (map g_id member_groups) (g_id g)))
                          createdGroups)%list.
Qed.

Lemma In_fetchUserGroups (be : Backend) (db : Db) (U : Uuid) (ug : UserGroup) :
  In ug (fetchUserGroups be db (Some U)) <->
  exists g, ug = processed g /\ listed_for be db U g.
Proof.
  rewrite fetchUserGroups_normal_form. cbv zeta.
  rewrite in_map_iff.
  assert (Hmember : forall g,
    In g (order_by_updated_at_desc
            (select_groups be db U (fun g => includes (groupIds be db U) (g_id g))))
    <-> In g (groups db) /\ groups_select be db U g = true
        /\ In (g_id g) (groupIds be db U)).
  { intros g. rewrite In_order_by_updated_at_desc. unfold select_groups.
    rewrite filter_In, andb_true_iff, includes_true. tauto. }
  assert (Hcreated : forall g,
    In g (order_by_updated_at_desc
            (select_groups be db U (fun g => g_created_by g =? U)))
    <-> In g (groups db) /\ groups_select be db U g = true /\ g_created_by g = U).
  { intros g. rewrite In_order_by_updated_at_desc. unfold select_groups.
    rewrite filter_In, andb_true_iff, String.eqb_eq. tauto. }
  split.
  - intros [g [Hug Hin]]. exists g. split; [now symmetry |].
    unfold listed_for. apply in_app_or in Hin. destruct Hin as [Hin | Hin].
    + apply Hmember in Hin. rewrite In_groupIds in Hin. tauto.
    + apply filter_In in Hin. destruct Hin as [Hin _]. apply Hcreated in Hin. tauto.
  - intros [g [Hug [Hin [Hsel Hwhy]]]]. exists g. split; [now symmetry |].
    apply in_or_app.
    destruct (includes (groupIds be db U) (g_id g)) eqn:Hinc.
    + left. apply Hmember. apply includes_true in Hinc. tauto.
    + right. apply filter_In. split.
      * apply Hcreated. destruct Hwhy as [Hrow | Hc]; [| tauto].
        exfalso. apply not_true_iff_false in Hinc. apply Hinc.
        apply includes_true, In_groupIds. exact Hrow.
      * rewrite negb_true_iff. apply not_true_iff_false. intros Hdup.
        apply includes_true, in_map_iff in Hdup. destruct Hdup as [g' [Hid Hg']].
        apply Hmember in Hg'. apply not_true_iff_false in Hinc. apply Hinc.
        apply includes_true. rewrite <- Hid. tauto.
Qed.

(** X16.  fetchUserGroups lists exactly the groups that the backend
    shows to the user and for which she has a visible membership row or
    which she created, each with member_count 0, unread_count 0 and no
    latest message; a group she created is listed even when she has no
    membership row. *)
Theorem fetchUserGroups_lists (be : Backend) (db : Db) (U : Uuid) :
  fetchUserGroups be db None = []
  /\ (forall ug, In ug (fetchUserGroups be db (Some U)) <->
                 exists g, ug = mkUserGroup g 0 0 None /\ listed_for be db U g)
  /\ (forall g, In g (groups db) -> groups_select be db U g = true ->
                g_created_by g = U ->
                In (mkUserGroup g 0 0 None) (fetchUserGroups be db (Some U))).
Proof.
  split; [reflexivity |]. split.
  - intros ug. apply In_fetchUserGroups.
  - intros g Hin Hsel Hc. apply In_fetchUserGroups. exists g.
    split; [reflexivity |]. unfold listed_for. tauto.
Qed.

(** X17.  isGroupMember, asked after fetchUserGroups has set the list,
    answers true for an id exactly when some group with that id belongs on
    the list: also for a group that the user created and in which she has
    no membership row. *)
Theorem isGroupMember_after_fetch (be : Backend) (db : Db) (U G : Uuid) :
  isGroupMember (fetchUserGroups be db (Some U)) G = true <->
  exists g, g_id g = G /\ listed_for be db U g.
Proof.
  unfold isGroupMember. rewrite existsb_exists. split.
  - intros [ug [Hin Hid]]. apply In_fetchUserGroups in Hin.
    destruct Hin as [g [-> Hl]]. exists g. simpl in Hid.
    apply String.eqb_eq in Hid. tauto.
  - intros [g [Hid Hl]]. exists (processed g). split.
    + apply In_fetchUserGroups. now exists g.
    + simpl. now apply String.eqb_eq.
Qed.

Lemma NoDup_ids_insert_by_updated_at (g : Group) (l : list Group) :
  NoDup (map g_id (g :: l)) -> NoDup (map g_id (insert_by_updated_at g l)).
Proof.
  induction l as [| h t IH]; simpl; intros Hnd; [exact Hnd |].
  destruct (Nat.ltb (g_updated_at h) (g_updated_at g)); [exact Hnd |].
  inversion Hnd as [| x xs Hg Hnd1]; subst.
  inversion Hnd1 as [| x xs Hh Hnd2]; subst.
  simpl. constructor.
  - intros Hin. apply in_map_iff in Hin. destruct Hin as [x [Hx Hin]].
    apply In_insert_by_updated_at in Hin. destruct Hin as [-> | Hin].
    + apply Hg. simpl. now left.
    + apply Hh. rewrite <- Hx. now apply in_map.
  - apply IH. simpl. constructor; [| exact Hnd2].
    intros Hin. apply Hg. simpl. now right.
Qed.

Lemma NoDup_ids_order_by_updated_at_desc (l : list Group) :
  NoDup (map g_id l) -> NoDup (map g_id (order_by_updated_at_desc l)).
Proof.
  induction l as [| h t IH]; intros Hnd; [constructor |].
  change (order_by_updated_at_desc (h :: t))
    with (insert_by_updated_at h (order_by_updated_at_desc t)).
  simpl in Hnd. inversion Hnd as [| x xs Hh Hnd']; subst.
  apply NoDup_ids_insert_by_updated_at.
  change (NoDup (g_id h :: map g_id (order_by_updated_at_desc t))).
  constructor; [| now apply IH].
  intros Hin. apply Hh. apply in_map_iff in Hin. destruct Hin as [x [Hx Hin]].
  apply in_map_iff. exists x. split; [exact Hx |].
  now apply In_order_by_updated_at_desc.
Qed.

Lemma NoDup_ids_filter (keep : Group -> bool) (l : list Group) :
  NoDup (map g_id l) -> NoDup (map g_id (filter keep l)).
Proof.
  induction l as [| h t IH]; simpl; intros Hnd; [constructor |].
  inversion Hnd as [| x xs Hh Hnd']; subst.
  destruct (keep h); simpl; [| now apply IH].
  constructor; [| now apply IH].
  intros Hin. apply Hh. apply in_map_iff in Hin. destruct Hin as [x [Hx Hin]].
  apply filter_In in Hin. rewrite <- Hx. apply in_map. tauto.
Qed.

(** X18.  The merge of fetchUserGroups avoids duplicates: when no two
    rows of groups share an id, no id is on the list twice, also for a
    group that the user both created and belongs to. *)
Theorem fetchUserGroups_no_duplicates (be : Backend) (db : Db) (U : Uuid)
    (Hkey : NoDup (map g_id (groups db))) :
  NoDup (map (fun ug => g_id (ug_group ug)) (fetchUserGroups be db (Some U))).
Proof.
  rewrite fetchUserGroups_normal_form. cbv zeta.
  rewrite map_map. simpl. rewrite map_app. apply NoDup_app.
  - apply NoDup_ids_order_by_updated_at_desc. unfold select_groups.
    now apply NoDup_ids_filter.
  - apply NoDup_ids_filter, NoDup_ids_order_by_updated_at_desc.
    unfold select_groups. now apply NoDup_ids_filter.
  - intros i Hin Hin'. apply in_map_iff in Hin'. destruct Hin' as [g [Hid Hg]].
    apply filter_In in Hg. destruct Hg as [_ Hg].
    rewrite negb_true_iff in Hg. apply not_true_iff_false in Hg. apply Hg.
    apply includes_true. now rewrite Hid.
Qed.

Lemma fetchUserGroups_no_duplicates_witness :
  NoDup (map (fun ug => g_id (ug_group ug))
             (fetchUserGroups be_migration db_campus (Some "alice"))).
Proof.
  apply (fetchUserGroups_no_duplicates be_migration db_campus "alice").
  simpl. repeat constructor; simpl; intuition discriminate.
Defined.

(** X19.  The later fetchUserGroups lists every group that the first
    version lists (no group having the empty id), and the first version
    lists nothing for a user without a visible membership row, whatever
    she created. *)
Theorem fetchUserGroups_extends_first (be : Backend) (db : Db) (U : Uuid)
    (prev : list UserGroup)
    (Hids : forall g, In g (groups db) -> g_id g <> EmptyString) :
  (forall ug, In ug (FirstHook.fetchUserGroups be db (Some U) prev) ->
              In ug (fetchUserGroups be db (Some U)))
  /\ (select_members be db U (fun m => gm_user_id m =? U) = [] ->
      FirstHook.fetchUserGroups be db (Some U) prev = []).
Proof.
  split.
  - intros ug Hin. apply In_fetchUserGroups.
    unfold FirstHook.fetchUserGroups in Hin.
    destruct (select_members be db U (fun m => gm_user_id m =? U)) as [| m0 ms] eqn:HM;
      [contradiction |].
    rewrite <- HM in Hin. apply in_map_iff in Hin. destruct Hin as [g [Hug Hin]].
    exists g. split; [now symmetry |].
    rewrite In_order_by_updated_at_desc in Hin. unfold select_groups in Hin.
    apply filter_In in Hin. destruct Hin as [Hin Hp].
    apply andb_true_iff in Hp. destruct Hp as [Hinc Hsel].
    apply includes_true, in_map_iff in Hinc. destruct Hinc as [m [Hm Hmin]].
    unfold select_members in Hmin. apply filter_In in Hmin.
    rewrite andb_true_iff, String.eqb_eq in Hmin.
    unfold listed_for. split; [exact Hin |]. split; [exact Hsel |]. left.
    split; [now apply Hids |]. exists m. tauto.
  - intros HM. unfold FirstHook.fetchUserGroups. now rewrite HM.
Qed.

Lemma fetchUserGroups_extends_first_witness :
  (forall ug, In ug (FirstHook.fetchUserGroups be_migration db_campus (Some "alice") []) ->
              In ug (fetchUserGroups be_migration db_campus (Some "alice")))
  /\ (select_members be_migration db_campus "alice"
                     (fun m => gm_user_id m =? "alice") = [] ->
      FirstHook.fetchUserGroups be_migration db_campus (Some "alice") [] = []).
Proof.
  apply (fetchUserGroups_extends_first be_migration db_campus "alice" []).
  intros g Hin. simpl in Hin. destruct Hin as [<- | [<- | []]]; discriminate.
Defined.

(** ** updateGroup *)

Lemma map_field_update {B : Type} (f : Group -> B) (change : Group -> bool)
    (updates : GroupUpdates) (l : list Group) :
  (forall g, f (apply_updates updates g) = f g) ->
  map f (map (fun g => if change g then apply_updates updates g else g) l) = map f l.
Proof.
  intros Hf. rewrite map_map. apply map_ext. intros g.
  destruct (change g); [apply Hf | reflexivity].
Qed.

(** X20.  updateGroup never fails for a signed-in user and never
    touches the memberships; the groups keep their order, ids, creators,
    visibility and creation times; a group with another id, or created by
    someone else, is left exactly as it was; and for a user who created no
    group with that id the call changes nothing at all, without an
    error. *)
Theorem updateGroup_only_creator
    (groups_update : Db -> Uuid -> Group -> bool)
    (db : Db) (U G : Uuid) (updates : GroupUpdates) :
  let r := updateGroup groups_update db (Some U) G updates in
  snd r = Returned tt
  /\ group_members (fst r) = group_members db
  /\ map g_id (groups (fst r)) = map g_id (groups db)
  /\ map g_created_by (groups (fst r)) = map g_created_by (groups db)
  /\ map g_visibility (groups (fst r)) = map g_visibility (groups db)
  /\ map g_created_at (groups (fst r)) = map g_created_at (groups db)
  /\ (forall g, In g (groups db) -> g_id g <> G \/ g_created_by g <> U ->
                In g (groups (fst r)))
  /\ (is_creator db G U = false -> fst r = db).
Proof.
  intros r. unfold r, updateGroup. simpl.
  split; [reflexivity |]. split; [reflexivity |].
  split; [now apply map_field_update |].
  split; [now apply map_field_update |].
  split; [now apply map_field_update |].
  split; [now apply map_field_update |].
  split.
  - intros g Hin Hother. apply in_map_iff. exists g. split; [| exact Hin].
    destruct Hother as [Hid | Hc].
    + apply String.eqb_neq in Hid. now rewrite Hid.
    + apply String.eqb_neq in Hc. now rewrite Hc, andb_false_r.
  - intros Hnc. rewrite <- (db_eta db) at 3. f_equal.
    rewrite <- (map_id (groups db)) at 2. apply map_ext_in. intros g Hin.
    destruct ((g_id g =? G) && (g_created_by g =? U)) eqn:Hmatch; [| reflexivity].
    exfalso. apply not_true_iff_false in Hnc. apply Hnc.
    apply is_creator_true. exists g.
    rewrite andb_true_iff, !String.eqb_eq in Hmatch. tauto.
Qed.

(** ** The first discovery list *)

Lemma sorted_firstn {A : Type} (R : A -> A -> Prop) (n : nat) (l : list A) :
  StronglySorted R l -> StronglySorted R (firstn n l).
Proof.
  intros Hs. revert n. induction Hs as [| a l Hs IH Hall]; intros [| n]; simpl;
    try constructor; auto.
  rewrite Forall_forall in *. intros x Hx. apply Hall.
  now apply (In_firstn_In n).
Qed.

(** X21.  The first fetchPublicGroups lists at most 20 groups, latest
    first, each with member_count 0; every one of them is a row of groups
    as stored, visible to the caller and stored as public; and when at most
    20 groups are public and visible it lists each of them, the caller's
    own groups and the ones she belongs to among them. *)
Theorem fetchPublicGroups_v1_public_only (be : Backend) (db : Db) (U : Uuid) :
  let result := FirstHook.fetchPublicGroups be db U in
  List.length result <= 20
  /\ StronglySorted latest_first (map pg_group result)
  /\ (forall pg, In pg result ->
        pg_member_count pg = 0 /\ In (pg_group pg) (groups db)
        /\ g_visibility (pg_group pg) = Public
        /\ groups_select be db U (pg_group pg) = true)
  /\ (List.length (filter (fun g => Visibility_eqb (g_visibility g) Public
                                    && groups_select be db U g) (groups db)) <= 20 ->
      forall g, In g (groups db) -> g_visibility g = Public ->
                groups_select be db U g = true -> In (mkPublicGroup g 0) result).
Proof.
  intros result. unfold result, FirstHook.fetchPublicGroups.
  split; [| split; [| split]].
  - rewrite length_map. apply firstn_le_length.
  - rewrite map_map. cbn [pg_group]. rewrite map_id.
    apply sorted_firstn, sorted_order_by_created_at_desc.
  - intros pg Hpg. apply in_map_iff in Hpg. destruct Hpg as [g [<- Hg]].
    cbn [pg_group pg_member_count].
    apply In_firstn_In in Hg. rewrite In_order_by_created_at_desc in Hg.
    unfold select_groups in Hg. apply filter_In in Hg.
    destruct Hg as [Hin Hp]. apply andb_true_iff in Hp. destruct Hp as [Hv Hs].
    repeat split; auto. now destruct (g_visibility g).
  - intros Hlen g Hin Hv Hs. rewrite firstn_all2.
    + apply (in_map (fun group => mkPublicGroup group 0)).
      rewrite In_order_by_created_at_desc. unfold select_groups.
      apply filter_In. split; [exact Hin |]. now rewrite Hv, Hs.
    + pose proof (length_filter_order (fun _ => true)
                    (select_groups be db U
                       (fun g => Visibility_eqb (g_visibility g) Public))) as Hl.
      rewrite !filter_all in Hl by auto. rewrite Hl. exact Hlen.
Qed.

(** ** Joining and the discovery list *)

(** X22.  A group that the user has joined is no longer offered to her:
    after a joinGroup that returned, with her own rows visible to her,
    fetchPublicGroups lists no group with the id of the joined one. *)
Theorem joinGroup_leaves_discovery
    (be : Backend) (db db' : Db) (U G : Uuid) (new_mid : Uuid) (now : Time)
    (Hjoin : joinGroup be db (Some U) G new_mid now = (db', Returned tt))
    (Hid : G <> EmptyString)
    (Hown : forall m, In m (group_members db') -> gm_user_id m = U ->
                      members_select be db' U m = true) :
  existsb (fun pg => g_id (pg_group pg) =? G) (fetchPublicGroups be db' (Some U))
  = false.
Proof.
  apply not_true_iff_false. intros Hlisted.
  apply existsb_exists in Hlisted. destruct Hlisted as [pg [Hpg Hsame]].
  apply String.eqb_eq in Hsame.
  assert (Hrow : In (mkGroupMember new_mid G U Member now) (group_members db')).
  { unfold joinGroup, insert_member, raw_insert_member in Hjoin.
    destruct (members_insert be db U _); [| discriminate].
    destruct (is_member db _ _); [discriminate |].
    inversion Hjoin; subst. cbn [group_members]. apply in_or_app. right. now left. }
  rewrite fetchPublicGroups_unfold in Hpg. apply in_map_iff in Hpg.
  destruct Hpg as [g [<- Hg]]. cbn [pg_group as_public g_id] in Hsame.
  apply In_firstn_In, In_notExcluded in Hg. destruct Hg as [_ [_ Hex]].
  apply Hex. rewrite In_userGroupIds. rewrite Hsame. split; [exact Hid |].
  left. exists (mkGroupMember new_mid G U Member now).
  repeat split; auto.
Qed.

Lemma joinGroup_leaves_discovery_witness :
  existsb (fun pg => g_id (pg_group pg) =? "g2")
          (fetchPublicGroups be_migration
             (mkDb [chess] [mkGroupMember "m1" "g2" "alice" Admin 20;
                            mkGroupMember "m2" "g2" "bob" Member 21])
             (Some "bob"))
  = false.
Proof.
  apply (joinGroup_leaves_discovery be_migration db_chess _ "bob" "g2" "m2" 21).
  - reflexivity.
  - discriminate.
  - intros m Hin Hu. simpl in Hin.
    destruct Hin as [<- | [<- | []]]; reflexivity.
Defined.

(** * Group chat *)

Lemma member_case_is_member (be : Backend) (db : Db) (U gid : Uuid) :
  (forall m, In m (group_members db) -> gm_user_id m = U ->
             members_select be db U m = true) ->
  Chat.member_case be db U gid = is_member db gid U.
Proof.
  intros Hown. unfold Chat.member_case, is_member, is_pair.
  induction (group_members db) as [| m ms IH]; [reflexivity |].
  simpl. rewrite IH by (intros x Hx; apply Hown; now right).
  f_equal. destruct (gm_user_id m =? U) eqn:Hu.
  - apply String.eqb_eq in Hu. rewrite (Hown m (or_introl eq_refl) Hu).
    now rewrite andb_true_r, andb_true_r.
  - now rewrite andb_false_r.
Qed.

(** X23.  Under the SELECT policy that the SQL files put on groups, and
    with the caller's own membership rows visible to her, the creator
    case of the later policies of group_messages adds nothing for a
    group that is not public: its subquery reads groups through that
    policy, which shows such a group to its members only.  The later
    policies then admit exactly what the first ones admit, and the
    creator of the group who has no membership row in it may neither read
    its messages nor send one. *)
Theorem creator_case_of_private_group
    (be : Backend) (db : Db) (U : Uuid) (row : Chat.MessageRow)
    (Hsel : groups_select be = Policy.view_groups_members_or_public)
    (Hown : forall m, In m (group_members db) -> gm_user_id m = U ->
                      members_select be db U m = true)
    (Hprivate : is_group_public db (Chat.msg_group_id row) = false) :
  Chat.members_and_creators_can_view be db U row = Chat.members_can_view db U row
  /\ Chat.members_and_creators_can_send be db U row = Chat.members_can_send db U row
  /\ (is_member db (Chat.msg_group_id row) U = false ->
      Chat.members_and_creators_can_view be db U row = false
      /\ Chat.members_and_creators_can_send be db U row = false).
Proof.
  assert (Hc : Chat.creator_case be db U (Chat.msg_group_id row) = true ->
               is_member db (Chat.msg_group_id row) U = true).
  { unfold Chat.creator_case. rewrite Hsel, existsb_exists.
    intros [g [Hin Hg]]. rewrite !andb_true_iff, !String.eqb_eq in Hg.
    destruct Hg as [[_ Hid] Hv].
    apply view_groups_members_or_public_iff in Hv.
    destruct Hv as [Hp | Hm]; [| now rewrite <- Hid].
    exfalso. apply not_true_iff_false in Hprivate. apply Hprivate.
    unfold is_group_public. apply existsb_exists. exists g.
    split; [exact Hin |]. now rewrite Hid, String.eqb_refl, Hp. }
  assert (Hview : Chat.members_and_creators_can_view be db U row
                  = Chat.members_can_view db U row).
  { unfold Chat.members_and_creators_can_view, Chat.members_can_view.
    rewrite (member_case_is_member be db U _ Hown).
    destruct (is_member db (Chat.msg_group_id row) U) eqn:Hm; [reflexivity |].
    destruct (Chat.creator_case be db U (Chat.msg_group_id row)); [| reflexivity].
    specialize (Hc eq_refl). congruence. }
  assert (Hsend : Chat.members_and_creators_can_send be db U row
                  = Chat.members_can_send db U row).
  { unfold Chat.members_and_creators_can_send, Chat.members_can_send.
    f_equal. exact Hview. }
  split; [exact Hview |]. split; [exact Hsend |].
  intros Hno. rewrite Hview, Hsend.
  unfold Chat.members_can_view, Chat.members_can_send.
  rewrite Hno. now rewrite andb_false_r.
Qed.

Lemma creator_case_of_private_group_witness :
  creator_of db_alice_left "g1" "alice"
  /\ Chat.members_and_creators_can_view be_migration db_alice_left "alice" alice_row
     = false
  /\ Chat.members_and_creators_can_send be_migration db_alice_left "alice" alice_row
     = false.
Proof.
  split; [exists study_group; simpl; auto |].
  apply (creator_case_of_private_group be_migration db_alice_left "alice" alice_row).
  - reflexivity.
  - intros m [].
  - reflexivity.
  - reflexivity.
Defined.

(** X24.  sendMessage stores at most one row and never touches the
    memberships, the rows already stored or the messages already held.  A
    row it stores was admitted by the INSERT policy, has the caller as
    sender, the selected group, the trimmed content, which is not empty,
    and is not marked edited.  With no group selected, no user, or content
    that is blank after trimming it does nothing, and when the insert is
    refused it leaves the state as it was. *)
Theorem sendMessage_effects
    (trim : string -> string)
    (can_send : Db -> Uuid -> Chat.MessageRow -> bool)
    (profile_of : Uuid -> option Chat.Sender)
    (groups_update : Db -> Uuid -> Group -> bool)
    (st : Chat.State) (groupId user : option Uuid) (content : string)
    (mediaUrls : list string) (new_id : Uuid) (created_at now : Time) :
  let r := Chat.sendMessage trim can_send profile_of groups_update st groupId user
                            content mediaUrls new_id created_at now in
  group_members (Chat.st_db (fst r)) = group_members (Chat.st_db st)
  /\ (exists stored shown,
        Chat.st_table (fst r) = (Chat.st_table st ++ stored)%list
        /\ Chat.st_messages (fst r) = (Chat.st_messages st ++ shown)%list
        /\ (stored = [] /\ shown = []
            \/ exists gid me,
                 groupId = Some gid /\ user = Some me
                 /\ trim content <> EmptyString
                 /\ stored = [Chat.mkMessageRow new_id gid me (trim content) mediaUrls
                                                false None created_at]
                 /\ can_send (Chat.st_db st) me
                      (Chat.mkMessageRow new_id gid me (trim content) mediaUrls
                                         false None created_at) = true
                 /\ (shown = [] \/ exists profiles,
                       shown = [Chat.mkGroupMessage
                                  (Chat.mkMessageRow new_id gid me (trim content)
                                     mediaUrls false None created_at) profiles])))
  /\ ((groupId = None \/ user = None \/ trim content = EmptyString
       \/ snd r = Chat.Refused) -> fst r = st).
Proof.
  intros r. unfold r, Chat.sendMessage.
  destruct groupId as [gid |], user as [me |];
    try (split; [reflexivity |]; split;
         [exists [], []; rewrite !app_nil_r; auto | auto]).
  destruct (Chat.blank (trim content)) eqn:Hblank.
  - split; [reflexivity |]. split; [| auto].
    exists [], []. rewrite !app_nil_r. auto.
  - assert (Hne : trim content <> EmptyString).
    { intros He. rewrite He in Hblank. discriminate. }
    destruct (can_send (Chat.st_db st) me _) eqn:Hsend.
    + destruct (profile_of me) as [p |]; simpl.
      * split; [reflexivity |]. split.
        -- eexists _, _. repeat split. right. exists gid, me.
           repeat split; eauto.
        -- intros [H | [H | [H | H]]]; congruence.
      * split; [reflexivity |]. split.
        -- exists [Chat.mkMessageRow new_id gid me (trim content) mediaUrls
                                     false None created_at], [].
           rewrite app_nil_r. repeat split. right. exists gid, me.
           repeat split; auto.
        -- intros [H | [H | [H | H]]]; congruence.
    + split; [reflexivity |]. split; [| auto].
      exists [], []. rewrite !app_nil_r. auto.
Qed.

Lemma map_unchanged {A : Type} (f : A -> A) (l : list A) :
  (forall x, In x l -> f x = x) -> map f l = l.
Proof.
  intros H. rewrite <- (map_id l) at 2. now apply map_ext_in.
Qed.

(** X25.  editMessage on a message that another user sent: the stored
    rows stay as they are, since the update is restricted to the caller's
    own rows, yet every held copy of a message with that id is rewritten
    with the new content and marked edited; the hook then shows an edit
    that the table does not have. *)
Theorem editMessage_of_another_user
    (trim : string -> string) (st : Chat.State) (U messageId : Uuid)
    (newContent : string) (now now' : Time)
    (Hcontent : trim newContent <> EmptyString)
    (Hforeign : forall row, In row (Chat.st_table st) -> Chat.msg_id row = messageId ->
                            Chat.msg_sender_id row <> U) :
  let st' := Chat.editMessage trim st (Some U) messageId newContent now now' in
  Chat.st_table st' = Chat.st_table st
  /\ Chat.st_db st' = Chat.st_db st
  /\ forall msg, In msg (Chat.st_messages st) ->
       Chat.msg_id (Chat.gmsg_row msg) = messageId ->
       In (Chat.mkGroupMessage
             (Chat.mkMessageRow messageId (Chat.msg_group_id (Chat.gmsg_row msg))
                (Chat.msg_sender_id (Chat.gmsg_row msg)) (trim newContent)
                (Chat.msg_media_urls (Chat.gmsg_row msg)) true (Some now')
                (Chat.msg_created_at (Chat.gmsg_row msg)))
             (Chat.gmsg_sender msg))
          (Chat.st_messages st').
Proof.
  intros st'. unfold st', Chat.editMessage.
  assert (Hblank : Chat.blank (trim newContent) = false).
  { destruct (trim newContent); [congruence | reflexivity]. }
  rewrite Hblank. simpl. repeat split.
  - apply map_unchanged. intros row Hin.
    destruct (Chat.msg_id row =? messageId) eqn:Hid; [| reflexivity].
    apply String.eqb_eq in Hid. pose proof (Hforeign row Hin Hid) as Hs.
    apply String.eqb_neq in Hs. now rewrite Hs.
  - intros msg Hin Hid. apply in_map_iff. exists msg. split; [| exact Hin].
    rewrite <- Hid, String.eqb_refl. reflexivity.
Qed.

Lemma editMessage_of_another_user_witness :
  Chat.st_table (Chat.editMessage (fun s => s) chat_alice_bob (Some "alice") "x1"
                                  "edited by alice" 70 71)
  = [bob_row]
  /\ Chat.st_db (Chat.editMessage (fun s => s) chat_alice_bob (Some "alice") "x1"
                                  "edited by alice" 70 71)
     = db_alice_bob
  /\ forall msg, In msg (Chat.st_messages chat_alice_bob) ->
       Chat.msg_id (Chat.gmsg_row msg) = "x1" ->
       In (Chat.mkGroupMessage
             (Chat.mkMessageRow "x1" (Chat.msg_group_id (Chat.gmsg_row msg))
                (Chat.msg_sender_id (Chat.gmsg_row msg)) "edited by alice"
                (Chat.msg_media_urls (Chat.gmsg_row msg)) true (Some 71)
                (Chat.msg_created_at (Chat.gmsg_row msg)))
             (Chat.gmsg_sender msg))
          (Chat.st_messages
             (Chat.editMessage (fun s => s) chat_alice_bob (Some "alice") "x1"
                               "edited by alice" 70 71)).
Proof.
  apply (editMessage_of_another_user (fun s => s) chat_alice_bob "alice" "x1"
           "edited by alice" 70 71).
  - discriminate.
  - intros row Hin _. simpl in Hin. destruct Hin as [<- | []]. discriminate.
Defined.

(** X26.  editMessage keeps the stored messages in place: their number
    and order, ids, groups, senders and creation times never change; a row
    of another id or of another sender is left exactly as it was; and
    without a user, or with content that is blank after trimming, nothing
    changes at all. *)
Theorem editMessage_frame
    (trim : string -> string) (st : Chat.State) (user : option Uuid)
    (messageId : Uuid) (newContent : string) (now now' : Time) :
  let st' := Chat.editMessage trim st user messageId newContent now now' in
  map Chat.msg_id (Chat.st_table st') = map Chat.msg_id (Chat.st_table st)
  /\ map Chat.msg_group_id (Chat.st_table st') = map Chat.msg_group_id (Chat.st_table st)
  /\ map Chat.msg_sender_id (Chat.st_table st') = map Chat.msg_sender_id (Chat.st_table st)
  /\ map Chat.msg_created_at (Chat.st_table st')
     = map Chat.msg_created_at (Chat.st_table st)
  /\ (forall row, In row (Chat.st_table st) ->
        Chat.msg_id row <> messageId \/ Some (Chat.msg_sender_id row) <> user ->
        In row (Chat.st_table st'))
  /\ ((user = None \/ trim newContent = EmptyString) -> st' = st).
Proof.
  intros st'. unfold st', Chat.editMessage.
  destruct user as [me |].
  - destruct (Chat.blank (trim newContent)) eqn:Hblank.
    + repeat split; auto.
    + simpl. rewrite !map_map.
      split; [| split; [| split; [| split; [| split]]]];
        try (apply map_ext; intros row;
             now destruct ((Chat.msg_id row =? messageId)
                           && (Chat.msg_sender_id row =? me)
                           && Chat.own_message me row)).
      * intros row Hin Hother. apply in_map_iff. exists row. split; [| exact Hin].
        destruct Hother as [Hid | Hs].
        -- apply String.eqb_neq in Hid. now rewrite Hid.
        -- assert (Hs' : Chat.msg_sender_id row <> me) by congruence.
           apply String.eqb_neq in Hs'. now rewrite Hs', andb_false_r.
      * intros [H | H]; [discriminate |]. rewrite H in Hblank. discriminate.
  - repeat split; auto.
Qed.

(** X27.  deleteMessage removes from the table only rows with that id
    that the caller sent and that the SELECT policy of group_messages
    shows her, and from the messages held every message with that id:
    for a message of another user, or one that the policy hides, the
    stored row stays while the held copy disappears. *)
Theorem deleteMessage_own_rows_only
    (can_view : Db -> Uuid -> Chat.MessageRow -> bool)
    (st : Chat.State) (U messageId : Uuid) :
  let st' := Chat.deleteMessage can_view st (Some U) messageId in
  (forall row, In row (Chat.st_table st') <->
               In row (Chat.st_table st)
               /\ ~ (Chat.msg_id row = messageId /\ Chat.msg_sender_id row = U
                     /\ can_view (Chat.st_db st) U row = true))
  /\ (forall msg, In msg (Chat.st_messages st') <->
                  In msg (Chat.st_messages st)
                  /\ Chat.msg_id (Chat.gmsg_row msg) <> messageId)
  /\ Chat.st_db st' = Chat.st_db st
  /\ Chat.deleteMessage can_view st None messageId = st.
Proof.
  intros st'. unfold st', Chat.deleteMessage. simpl. repeat split.
  - apply filter_In in H. tauto.
  - apply filter_In in H. destruct H as [_ H]. intros [Hid [Hs Hv]].
    unfold Chat.own_message in H.
    rewrite Hid, Hs, Hv, !String.eqb_refl in H. discriminate.
  - intros [Hin Hn]. apply filter_In. split; [exact Hin |].
    rewrite negb_true_iff. apply not_true_iff_false. intros Hm.
    rewrite !andb_true_iff, !String.eqb_eq in Hm. tauto.
  - apply filter_In in H. tauto.
  - apply filter_In in H. destruct H as [_ H].
    now rewrite negb_true_iff, String.eqb_neq in H.
  - intros [Hin Hn]. apply filter_In. split; [exact Hin |].
    now rewrite negb_true_iff, String.eqb_neq.
Qed.

(** ** The handlers of the subscription *)

Lemma In_ids (l : list Chat.GroupMessage) (i : Uuid) :
  existsb (fun msg => Chat.msg_id (Chat.gmsg_row msg) =? i) l = true
  <-> In i (Chat.ids l).
Proof.
  unfold Chat.ids. rewrite existsb_exists, in_map_iff.
  split; intros [msg [H1 H2]]; exists msg.
  - apply String.eqb_eq in H2. tauto.
  - split; [exact H2 | now apply String.eqb_eq].
Qed.

(** X28.  The INSERT handler adds a message once: a second delivery of
    the same message changes nothing, and ids that were distinct stay
    distinct.  The append of sendMessage has no such test: made after the
    handler has added the message, it puts the same id on the list
    twice, while the handler run after the append adds nothing. *)
Theorem onInsert_once (prev : list Chat.GroupMessage) (newMessage : Chat.GroupMessage) :
  Chat.onInsert (Chat.onInsert prev newMessage) newMessage
  = Chat.onInsert prev newMessage
  /\ In (Chat.msg_id (Chat.gmsg_row newMessage))
        (Chat.ids (Chat.onInsert prev newMessage))
  /\ (NoDup (Chat.ids prev) -> NoDup (Chat.ids (Chat.onInsert prev newMessage)))
  /\ Chat.onInsert (prev ++ [newMessage]) newMessage = (prev ++ [newMessage])%list
  /\ ~ NoDup (Chat.ids (Chat.onInsert prev newMessage ++ [newMessage])).
Proof.
  assert (Hin : In (Chat.msg_id (Chat.gmsg_row newMessage))
                   (Chat.ids (Chat.onInsert prev newMessage))).
  { unfold Chat.onInsert.
    destruct (existsb _ prev) eqn:He.
    - now apply In_ids.
    - unfold Chat.ids. rewrite map_app, in_app_iff. right. now left. }
  assert (Hagain : forall l, In (Chat.msg_id (Chat.gmsg_row newMessage)) (Chat.ids l) ->
                             Chat.onInsert l newMessage = l).
  { intros l Hl. unfold Chat.onInsert. apply In_ids in Hl. now rewrite Hl. }
  split; [now apply Hagain |]. split; [exact Hin |]. split; [| split].
  - intros Hnd. unfold Chat.onInsert.
    destruct (existsb _ prev) eqn:He; [exact Hnd |].
    unfold Chat.ids. rewrite map_app. simpl. apply NoDup_snoc; [exact Hnd |].
    intros Hc. apply In_ids in Hc. congruence.
  - apply Hagain. unfold Chat.ids. rewrite map_app, in_app_iff. right. now left.
  - unfold Chat.ids. rewrite map_app. simpl. intros Hnd.
    apply NoDup_remove_2 in Hnd. rewrite app_nil_r in Hnd. now apply Hnd.
Qed.

(** X29.  The DELETE handler undoes the INSERT handler for a message
    whose id was not held, and the UPDATE handler replaces rows without
    changing which ids are held. *)
Theorem onDelete_onInsert (prev : list Chat.GroupMessage)
    (newMessage : Chat.GroupMessage) (payload_new : Chat.MessageRow)
    (Hfresh : ~ In (Chat.msg_id (Chat.gmsg_row newMessage)) (Chat.ids prev)) :
  Chat.onDelete (Chat.onInsert prev newMessage) (Chat.msg_id (Chat.gmsg_row newMessage))
  = prev
  /\ Chat.ids (Chat.onUpdate prev payload_new) = Chat.ids prev.
Proof.
  split.
  - unfold Chat.onInsert.
    assert (He : existsb (fun msg => Chat.msg_id (Chat.gmsg_row msg)
                                     =? Chat.msg_id (Chat.gmsg_row newMessage)) prev
                 = false).
    { apply not_true_iff_false. now rewrite In_ids. }
    rewrite He. unfold Chat.onDelete. rewrite filter_app. simpl.
    rewrite String.eqb_refl. simpl. rewrite app_nil_r.
    apply filter_all. intros msg Hmsg.
    rewrite negb_true_iff, String.eqb_neq. intros Hid. apply Hfresh.
    unfold Chat.ids. rewrite <- Hid.
    now apply (in_map (fun m => Chat.msg_id (Chat.gmsg_row m))).
  - unfold Chat.ids, Chat.onUpdate. rewrite map_map. apply map_ext. intros msg.
    destruct (Chat.msg_id (Chat.gmsg_row msg) =? Chat.msg_id payload_new) eqn:Hid;
      [| reflexivity].
    simpl. apply String.eqb_eq in Hid. now symmetry.
Qed.

Lemma onDelete_onInsert_witness :
  Chat.onDelete (Chat.onInsert [Chat.mkGroupMessage bob_row bob_profile]
                               (Chat.mkGroupMessage alice_row alice_profile)) "x2"
  = [Chat.mkGroupMessage bob_row bob_profile]
  /\ Chat.ids (Chat.onUpdate [Chat.mkGroupMessage bob_row bob_profile]
                             (Chat.mkMessageRow "x1" "g1" "bob" "hello again" []
                                                true (Some 70) 50))
     = Chat.ids [Chat.mkGroupMessage bob_row bob_profile].
Proof.
  apply (onDelete_onInsert [Chat.mkGroupMessage bob_row bob_profile]
                           (Chat.mkGroupMessage alice_row alice_profile)
                           (Chat.mkMessageRow "x1" "g1" "bob" "hello again" []
                                              true (Some 70) 50)).
  simpl. intros [H | []]. discriminate.
Defined.
